(** * The map-view coordination core of the ArcGIS/Angular example

    A shallow embedding of [src/app/services/map.ts] (class [MapService]) and
    of [src/app/app.ts] (class [App], method [arcgisViewReadyChange]), with
    the facts the specification states about them.

    Layout:
    - the data model: the objects the code reads and writes;
    - a small monad for the effects of the code: a mutable world, the calls
      made, and exceptions that keep the mutations done so far;
    - the mapping engine and the window, as far as the code calls them;
    - the two classes, method by method;
    - the delivery of events and timers by the host;
    - the vocabulary of the statements, and the theorems. *)

From Stdlib Require Import PrimFloat.
From stdpp Require Import base option numbers list strings functions.

Set Warnings "-inexact-float".

Local Open Scope string_scope.
Local Open Scope list_scope.
Local Open Scope nat_scope.

(** ** Data model *)

(** A [MapView] is a mutable object that the service, the event and the
    mapping engine share: it is modelled by reference.  A reference is the
    identity of the object; the store below gives its current content. *)
Abbreviation ref := nat (only parsing).

(** JavaScript numbers are binary64 floats. *)
Abbreviation number := float (only parsing).

(** A property typed [T | null | undefined] is an [option T]: the code only
    ever tests such values with [?.], [??] and [!] on objects, which do not
    tell [null] from [undefined]. *)

Module PortalItem.
Record t := mk {
  title : option string;
  snippet : option string;
  thumbnailUrl : option string;
  itemPageUrl : option string;
}.
End PortalItem.

Module WebMap.
Record t := mk { portalItem : option PortalItem.t }.
End WebMap.

Module Attributes.
Record t := mk { title : string; lon : number; lat : number }.
End Attributes.

Module PopupTemplate.
Record t := mk { title : string; content : string }.
End PopupTemplate.

Module Graphic.
(** [{ type: 'point', longitude, latitude }] *)
Inductive Geometry := point (longitude latitude : number).
(** [{ type: 'simple-marker', size }] *)
Inductive Symbol := simple_marker (size : number).
Record t := mk {
  geometry : Geometry;
  symbol : Symbol;
  attributes : Attributes.t;
  popupTemplate : PopupTemplate.t;
}.
End Graphic.

Module Popup.
(** The argument of [popup.open]. *)
Record OpenOptions := mkOptions {
  features : list Graphic.t;
  location : Graphic.Geometry;
}.
(** The value of [view.popup] when it is an object.  Until the popup widget
    is loaded the engine keeps a placeholder there, an object that carries
    options and has no [open] method: this is the popup of a view that has
    just become ready.  The loaded widget is closed, or shows what it was
    last opened with. *)
Inductive t :=
| placeholder
| widget (shown : option OpenOptions).

(** The property [popup.open]: the method, when the object has one. *)
Definition open (p : t) : option (OpenOptions → t) :=
  match p with
  | placeholder => None
  | widget _ => Some (λ o, widget (Some o))
  end.
End Popup.

(** The two closures of the code, by what they do when called.
    - a listener: [() => { this.hideLoader(reason); handle.remove(); }],
      where [handle] is the registration of this very listener;
    - a timer callback: [() => this.mapSvc.hideLoader(reason)]. *)
Inductive ListenerFn := hide_and_unsubscribe (reason : string).
Inductive TimerFn := hide (reason : string).

Module GoToTarget.
Record t := mk { center : number * number; zoom : number }.
End GoToTarget.

Module MapView.
(** One registration made by [view.on(type, callback)]. *)
Record Listener := mkListener {
  id : nat;
  type : string;
  callback : ListenerFn;
}.
Record t := mk {
  map : option WebMap.t;
  graphics : list Graphic.t;
  popup : option Popup.t;
  listeners : list Listener;
  (** navigation requests the engine has received through [view.goTo] *)
  requests : list GoToTarget.t;
}.

Definition with_graphics (gs : list Graphic.t) (v : t) : t :=
  mk (map v) gs (popup v) (listeners v) (requests v).
Definition with_popup (p : option Popup.t) (v : t) : t :=
  mk (map v) (graphics v) p (listeners v) (requests v).
Definition with_listeners (ls : list Listener) (v : t) : t :=
  mk (map v) (graphics v) (popup v) ls (requests v).
Definition with_requests (rs : list GoToTarget.t) (v : t) : t :=
  mk (map v) (graphics v) (popup v) (listeners v) rs.
End MapView.

(** What [view.on] returns: the view and the registration to remove. *)
Module Handle.
Record t := mk { owner : ref; registration : nat }.
End Handle.

(** What [view.goTo] returns: the engine's promise for that request. *)
Module Promise.
Record t := mk { of_view : ref; of_target : GoToTarget.t }.
End Promise.

(** The [<calcite-navigation-logo>] element: the five properties written. *)
Module NavLogo.
Record t := mk {
  heading : option string;
  description : option string;
  thumbnail : option string;
  href : option string;
  label : option string;
}.
End NavLogo.

(** The [<calcite-loader>] element. *)
Module Loader.
Record t := mk { hidden : bool }.
End Loader.

(** The document, as far as [document.querySelector] is asked about it: the
    first element matching each of the two selectors, if there is one. *)
Module Document.
Record t := mk {
  calcite_navigation_logo : option NavLogo.t;
  calcite_loader : option Loader.t;
}.
Definition with_navLogo (n : option NavLogo.t) (d : t) : t :=
  mk n (calcite_loader d).
Definition with_loader (l : option Loader.t) (d : t) : t :=
  mk (calcite_navigation_logo d) l.
End Document.

(** The notification of [<arcgis-map>]: [event.detail] and [event.target],
    each possibly absent, each possibly exposing a [view]. *)
Module Detail.
Record t := mk { view : option ref }.
End Detail.

Module Target.
Record t := mk { view : option ref }.
End Target.

Module CustomEvent.
Record t := mk { detail : option Detail.t; target : option Target.t }.
End CustomEvent.

(** The console. *)
Inductive LogArg :=
| arg_event (e : CustomEvent.t)
| arg_view (v : ref).

Inductive ConsoleEntry :=
| console_log (msg : string) (arg : option LogArg)
| console_warn (msg : string).

(** A pending [setTimeout]. *)
Module Timer.
Record t := mk { handler : TimerFn; timeout : Z }.
End Timer.

(** ** The world the code runs in *)

Record World := mkWorld {
  (** [MapService._view]: the single stored handle *)
  _view : option ref;
  (** the content of every view object *)
  store : ref → MapView.t;
  document : Document.t;
  console : list ConsoleEntry;
  timers : list Timer.t;
}.

Definition with_view (v : option ref) (w : World) : World :=
  mkWorld v (store w) (document w) (console w) (timers w).
Definition with_store (s : ref → MapView.t) (w : World) : World :=
  mkWorld (_view w) s (document w) (console w) (timers w).
Definition with_document (d : Document.t) (w : World) : World :=
  mkWorld (_view w) (store w) d (console w) (timers w).
Definition with_console (c : list ConsoleEntry) (w : World) : World :=
  mkWorld (_view w) (store w) (document w) c (timers w).
Definition with_timers (t : list Timer.t) (w : World) : World :=
  mkWorld (_view w) (store w) (document w) (console w) t.

(** The service as constructed: nothing stored. *)
Definition new_MapService (w : World) : World := with_view None w.

(** ** Effects *)

(** The calls a run makes, in order: the service's methods as they are
    entered, the calls out to the mapping engine and to the window, and each
    listener the engine invokes. *)
Inductive Call :=
| svc_setView (view : ref)
| svc_updateHeaderFromPortalItem
| svc_hideLoader (reason : string)
| svc_hideLoaderOnFirstLayerCreate
| svc_goTo (center : number * number) (zoom : number)
| svc_clearGraphics
| svc_dropMarker (lon lat : number) (title : string)
| view_on (v : ref) (type : string) (h : Handle.t)
| handle_remove (h : Handle.t)
| view_goTo (v : ref) (target : GoToTarget.t)
| view_graphics_add (v : ref) (g : Graphic.t)
| view_graphics_removeAll (v : ref)
| view_popup_open (v : ref) (o : Popup.OpenOptions)
| window_setTimeout (handler : TimerFn) (timeout : Z)
| listener_invoked (h : Handle.t).

Inductive Exn := TypeError (msg : string).

Inductive Completion (A : Type) :=
| Normal (a : A)
| Throw (e : Exn).
Arguments Normal {A} a.
Arguments Throw {A} e.

(** A run: the calls made, the world left behind, and how it ended.  A
    [Throw] keeps the world as it was when the exception was raised:
    JavaScript undoes nothing. *)
Record Run (A : Type) := mkRun {
  trace : list Call;
  world : World;
  result : Completion A;
}.
Arguments mkRun {A} trace world result.
Arguments trace {A} r.
Arguments world {A} r.
Arguments result {A} r.

Definition M (A : Type) : Type := World → Run A.

#[global] Instance M_ret : MRet M := λ A a w, mkRun [] w (Normal a).

#[global] Instance M_bind : MBind M := λ A B f m w,
  match m w with
  | mkRun t1 w1 (Normal a) =>
      match f a w1 with
      | mkRun t2 w2 c2 => mkRun (t1 ++ t2) w2 c2
      end
  | mkRun t1 w1 (Throw e) => mkRun t1 w1 (Throw e)
  end.

Definition ret {A} (a : A) : M A := mret a.

Definition gets {A} (f : World → A) : M A := λ w, mkRun [] w (Normal (f w)).
Definition modify (f : World → World) : M unit := λ w, mkRun [] (f w) (Normal tt).
Definition call (c : Call) : M unit := λ w, mkRun [c] w (Normal tt).
Definition throw {A} (e : Exn) : M A := λ w, mkRun [] w (Throw e).

Definition log (e : ConsoleEntry) : M unit :=
  modify (λ w, with_console (console w ++ [e]) w).

(** ** The mapping engine and the window (external collaborators)

    The operations the code calls on a view, on a handle and on the window,
    with the effect their interface documents.  Each records the call in the
    trace. *)

Module Engine.
(** A registration number no listener of the view has. *)
Definition fresh (ls : list MapView.Listener) : nat :=
  S (foldr Nat.max 0 (MapView.id <$> ls)).

Definition update (v : ref) (f : MapView.t → MapView.t) : M unit :=
  modify (λ w, with_store (<[v := f (store w v)]> (store w)) w).

(** [view.on(type, callback)]: registers the listener after those already
    there and returns the handle of the registration. *)
Definition on (v : ref) (type : string) (callback : ListenerFn) : M Handle.t :=
  s ← gets store;
  let h := Handle.mk v (fresh (MapView.listeners (s v))) in
  call (view_on v type h);;
  update v (λ o, MapView.with_listeners
    (MapView.listeners o ++ [MapView.mkListener (Handle.registration h) type callback]) o);;
  ret h.

(** [handle.remove()] *)
Definition remove (h : Handle.t) : M unit :=
  call (handle_remove h);;
  update (Handle.owner h) (λ o, MapView.with_listeners
    (filter (λ l, MapView.id l ≠ Handle.registration h) (MapView.listeners o)) o).

(** [view.goTo(target)] *)
Definition goTo (v : ref) (target : GoToTarget.t) : M Promise.t :=
  call (view_goTo v target);;
  update v (λ o, MapView.with_requests (MapView.requests o ++ [target]) o);;
  ret (Promise.mk v target).

(** [view.graphics.add(g)]: a collection adds at the end. *)
Definition graphics_add (v : ref) (g : Graphic.t) : M unit :=
  call (view_graphics_add v g);;
  update v (λ o, MapView.with_graphics (MapView.graphics o ++ [g]) o).

(** [view.graphics.removeAll()] *)
Definition graphics_removeAll (v : ref) : M unit :=
  call (view_graphics_removeAll v);;
  update v (MapView.with_graphics []).

(** [view.popup!.open(options)].  The [!] of the source checks nothing at
    run time: reading [open] of an absent [popup] throws, and so does
    calling [open] when the object has no such method.  No call is made in
    either case. *)
Definition popup_open (v : ref) (o : Popup.OpenOptions) : M unit :=
  s ← gets store;
  match MapView.popup (s v) with
  | None => throw (TypeError "Cannot read properties of undefined (reading 'open')")
  | Some p =>
      match Popup.open p with
      | None => throw (TypeError "this._view.popup.open is not a function")
      | Some open =>
          call (view_popup_open v o);;
          update v (MapView.with_popup (Some (open o)))
      end
  end.

(** [setTimeout(handler, timeout)] *)
Definition setTimeout (handler : TimerFn) (timeout : Z) : M nat :=
  call (window_setTimeout handler timeout);;
  n ← gets (λ w, length (timers w));
  modify (λ w, with_timers (timers w ++ [Timer.mk handler timeout]) w);;
  ret n.
End Engine.

(** ** [MapService] (src/app/services/map.ts)

    Each method is written statement by statement after the source.  The one
    addition is the first line of each, which records the entry into the
    method in the trace; it reads and writes nothing.  A parameter with a
    default value is an [option]: [None] is the argument left out. *)

Module MapService.

(** lines 24-26 *)
Definition setView (view : ref) : M unit :=
  call (svc_setView view);;
  modify (with_view (Some view)).

(** lines 29-31, the getter [view] *)
Definition view : M (option ref) :=
  gets _view.

(** lines 36-48 *)
Definition updateHeaderFromPortalItem : M unit :=
  call svc_updateHeaderFromPortalItem;;
  this_view ← gets _view;
  s ← gets store;
  let webmap := this_view ≫= (λ v, MapView.map (s v)) in
  let portalItem := webmap ≫= WebMap.portalItem in
  navLogo ← gets (λ w, Document.calcite_navigation_logo (document w));
  match portalItem, navLogo with
  | Some portalItem, Some _ =>
      modify (λ w, with_document (Document.with_navLogo (Some (NavLogo.mk
        (PortalItem.title portalItem)
        (Some (default "" (PortalItem.snippet portalItem)))
        (PortalItem.thumbnailUrl portalItem)
        (PortalItem.itemPageUrl portalItem)
        (Some "Thumbnail of map"))) (document w)) w)
  | _, _ => ret tt
  end.

(** lines 54-60 *)
Definition hideLoader (reason : option string) : M unit :=
  let reason := default "view ready" reason in
  call (svc_hideLoader reason);;
  loader ← gets (λ w, Document.calcite_loader (document w));
  match loader with
  | Some l =>
      if negb (Loader.hidden l) then
        modify (λ w, with_document
          (Document.with_loader (Some (Loader.mk true)) (document w)) w);;
        log (console_log ("✅ Loader hidden (" +:+ reason +:+ ")") None)
      else ret tt
  | None => ret tt
  end.

(** lines 63-69; what the listener does when called is [Host.run_listener] *)
Definition hideLoaderOnFirstLayerCreate : M unit :=
  call svc_hideLoaderOnFirstLayerCreate;;
  this_view ← gets _view;
  match this_view with
  | None => ret tt
  | Some v =>
      handle ← Engine.on v "layerview-create" (hide_and_unsubscribe "layerview-create");
      ret tt
  end.

(** lines 74-76 *)
Definition goTo (center : number * number) (zoom : option number) : M (option Promise.t) :=
  let zoom := default 10%float zoom in
  call (svc_goTo center zoom);;
  this_view ← gets _view;
  match this_view with
  | None => ret None
  | Some v => p ← Engine.goTo v (GoToTarget.mk center zoom); ret (Some p)
  end.

(** lines 79-81 *)
Definition clearGraphics : M unit :=
  call svc_clearGraphics;;
  this_view ← gets _view;
  match this_view with
  | None => ret tt
  | Some v => Engine.graphics_removeAll v
  end.

(** lines 88-110 *)
Definition dropMarker (lon lat : number) (title : option string) : M unit :=
  let title := default "Point" title in
  call (svc_dropMarker lon lat title);;
  this_view ← gets _view;
  match this_view with
  | None => ret tt
  | Some v =>
      let g := Graphic.mk
        (Graphic.point lon lat)
        (Graphic.simple_marker 10%float)
        (Attributes.mk title lon lat)
        (PopupTemplate.mk "{title}" "Lon: {lon}<br>Lat: {lat}") in
      Engine.graphics_add v g;;
      this_view ← gets _view;
      match this_view with
      | None => ret tt
      | Some v =>
          Engine.popup_open v (Popup.mkOptions [g] (Graphic.geometry g))
      end
  end.

End MapService.

(** ** [App] (src/app/app.ts) *)

Module App.

(** lines 68-70: [event?.detail?.view ?? event.target?.view].  The value at
    either place is a view or absent, as the source types it
    ([__esri.MapView | undefined]). *)
Definition view_of (event : CustomEvent.t) : option ref :=
  match CustomEvent.detail event ≫= Detail.view with
  | Some v => Some v
  | None => CustomEvent.target event ≫= Target.view
  end.

(** lines 64-92 *)
Definition arcgisViewReadyChange (event : CustomEvent.t) : M unit :=
  log (console_log "📣 arcgisViewReadyChange fired" (Some (arg_event event)));;
  let view := view_of event in
  match view with
  | None =>
      log (console_warn "⚠️ MapView not found on event (detail.view/target.view)")
  | Some view =>
      log (console_log "✅ MapView is ready:" (Some (arg_view view)));;
      MapService.setView view;;
      MapService.updateHeaderFromPortalItem;;
      MapService.hideLoader (Some "view ready");;
      MapService.hideLoaderOnFirstLayerCreate;;
      Engine.setTimeout (hide "timeout fallback") 5000;;
      ret tt
  end.

End App.

(** ** Event delivery by the host

    What the mapping engine and the window do with the callbacks they were
    given (their documented contract; none of it is code of this
    repository): an emission calls the listeners registered for the event,
    an expired timer calls its handler once. *)

Module Host.

(** [() => { this.hideLoader(reason); handle.remove(); }], called for the
    registration [handle]. *)
Definition run_listener (handle : Handle.t) (f : ListenerFn) : M unit :=
  match f with
  | hide_and_unsubscribe reason =>
      MapService.hideLoader (Some reason);;
      Engine.remove handle
  end.

(** [() => this.mapSvc.hideLoader(reason)] *)
Definition run_timer (f : TimerFn) : M unit :=
  match f with
  | hide reason => MapService.hideLoader (Some reason)
  end.

Fixpoint deliver (v : ref) (ls : list MapView.Listener) : M unit :=
  match ls with
  | [] => ret tt
  | l :: ls =>
      let h := Handle.mk v (MapView.id l) in
      call (listener_invoked h);;
      run_listener h (MapView.callback l);;
      deliver v ls
  end.

(** The view [v] emits the event [type]: the listeners registered for it
    when the emission starts are called in the order they registered. *)
Definition emit (v : ref) (type : string) : M unit :=
  s ← gets store;
  deliver v (filter (λ l, MapView.type l = type) (MapView.listeners (s v))).

(** The [n]-th pending timer expires: it is dropped and its handler runs. *)
Definition expire (n : nat) : M unit :=
  ts ← gets timers;
  match ts !! n with
  | None => ret tt
  | Some t =>
      modify (with_timers (delete n ts));;
      run_timer (Timer.handler t)
  end.

Inductive Occurrence :=
| emitted (v : ref) (type : string)
| expired (n : nat).

Definition occur (o : Occurrence) : M unit :=
  match o with
  | emitted v type => emit v type
  | expired n => expire n
  end.

(** A stream of occurrences, delivered one after the other. *)
Fixpoint run (os : list Occurrence) : M unit :=
  match os with
  | [] => ret tt
  | o :: os => occur o;; run os
  end.

End Host.

(** ** Concrete worlds used in the examples *)

Definition parks : PortalItem.t :=
  PortalItem.mk (Some "Parks") None (Some "t.png") (Some "p.html").

Definition empty_view : MapView.t := MapView.mk None [] None [] [].

(** A view whose popup widget is loaded. *)
Definition parks_view : MapView.t :=
  MapView.mk (Some (WebMap.mk (Some parks))) [] (Some (Popup.widget None)) [] [].

(** A view as it is when it becomes ready: the popup is the placeholder. *)
Definition fresh_view : MapView.t :=
  MapView.mk (Some (WebMap.mk (Some parks))) [] (Some Popup.placeholder) [] [].

Definition blank_logo : NavLogo.t := NavLogo.mk None None None None None.

(** A page with both elements, the loader showing, view 1 loaded with the
    Parks map, and nothing stored in the service. *)
Definition page : World :=
  mkWorld None
    (<[1 := parks_view]> (λ _, empty_view))
    (Document.mk (Some blank_logo) (Some (Loader.mk false)))
    [] [].

(** [page] with view 3 just ready. *)
Definition fresh_page : World :=
  mkWorld None
    (<[3 := fresh_view]> (store page))
    (document page) [] [].

Definition ready (v : ref) : CustomEvent.t :=
  CustomEvent.mk None (Some (Target.mk (Some v))).

Definition after {A} (m : M A) (w : World) : World := world (m w).

(** ** Vocabulary of the statements *)

(** The metadata [updateHeaderFromPortalItem] reads: [this._view?.map],
    then [?.portalItem]. *)
Definition stored_portalItem (w : World) : option PortalItem.t :=
  v ← _view w; m ← MapView.map (store w v); WebMap.portalItem m.

Definition navLogo (w : World) : option NavLogo.t :=
  Document.calcite_navigation_logo (document w).

Definition loader (w : World) : option Loader.t :=
  Document.calcite_loader (document w).

(** Everything but the header element is as before. *)
Definition same_but_navLogo (w w' : World) : Prop :=
  _view w' = _view w ∧ store w' = store w ∧ loader w' = loader w
  ∧ console w' = console w ∧ timers w' = timers w.

Definition hidden_message (reason : option string) : ConsoleEntry :=
  console_log ("✅ Loader hidden (" +:+ default "view ready" reason +:+ ")") None.

(** The loader element is there and showing. *)
Definition loader_showing (w : World) : bool :=
  match loader w with
  | Some l => negb (Loader.hidden l)
  | None => false
  end.

(** The two places a notification may carry the handle. *)
Definition detail_view (event : CustomEvent.t) : option ref :=
  d ← CustomEvent.detail event; Detail.view d.

Definition target_view (event : CustomEvent.t) : option ref :=
  t ← CustomEvent.target event; Target.view t.

Definition fired (event : CustomEvent.t) : ConsoleEntry :=
  console_log "📣 arcgisViewReadyChange fired" (Some (arg_event event)).

Definition not_found : ConsoleEntry :=
  console_warn "⚠️ MapView not found on event (detail.view/target.view)".

(** A run that did nothing but be called. *)
Definition silent_noop {A} (r : Run A) (c : Call) (w : World) (a : A) : Prop :=
  r = mkRun [c] w (Normal a).

Definition keeps_view {A} (m : M A) : Prop :=
  ∀ w, _view (world (m w)) = _view w.

(** The graphic [dropMarker] builds. *)
Definition marker (lon lat : number) (title : option string) : Graphic.t :=
  Graphic.mk
    (Graphic.point lon lat)
    (Graphic.simple_marker 10%float)
    (Attributes.mk (match title with Some t => t | None => "Point" end) lon lat)
    (PopupTemplate.mk "{title}" "Lon: {lon}<br>Lat: {lat}").

Definition graphics_of (w : World) (v : ref) : list Graphic.t :=
  MapView.graphics (store w v).

Definition popup_of (w : World) (v : ref) : option Popup.t :=
  MapView.popup (store w v).

#[global] Instance Handle_eq_dec : EqDecision Handle.t.
Proof. solve_decision. Defined.

Definition listeners_of (w : World) (v : ref) : list MapView.Listener :=
  MapView.listeners (store w v).

(** The listeners registered under the handle [h]. *)
Definition registered (h : Handle.t) (w : World) : list MapView.Listener :=
  filter (λ l, MapView.id l = Handle.registration h) (listeners_of w (Handle.owner h)).

Definition is_invocation (h : Handle.t) (c : Call) : bool :=
  match c with
  | listener_invoked h' => bool_decide (h' = h)
  | _ => false
  end.

(** How many times a run called the listener registered under [h]. *)
Definition invocations (h : Handle.t) (tr : list Call) : nat :=
  length (List.filter (is_invocation h) tr).

Definition hide_in (reason : option string) (w : World) : World :=
  if loader_showing w
  then with_console (console w ++ [hidden_message reason])
         (with_document (Document.with_loader (Some (Loader.mk true)) (document w)) w)
  else w.

Definition unsubscribe (h : Handle.t) (w : World) : World :=
  with_store (<[Handle.owner h :=
    MapView.with_listeners
      (filter (λ l, MapView.id l ≠ Handle.registration h)
         (listeners_of w (Handle.owner h)))
      (store w (Handle.owner h))]> (store w)) w.

Definition ids (ls : list MapView.Listener) : list nat := MapView.id <$> ls.

#[global] Instance Occurrence_eq_dec : EqDecision Host.Occurrence.
Proof. solve_decision. Defined.

(** The listener [hideLoaderOnFirstLayerCreate] registers. *)
Definition first_layer_listener (n : nat) : MapView.Listener :=
  MapView.mkListener n "layerview-create" (hide_and_unsubscribe "layerview-create").

(** The header [updateHeaderFromPortalItem] writes for a portal item. *)
Definition header_of (item : PortalItem.t) : NavLogo.t :=
  NavLogo.mk
    (PortalItem.title item)
    (Some (match PortalItem.snippet item with Some s => s | None => "" end))
    (PortalItem.thumbnailUrl item)
    (PortalItem.itemPageUrl item)
    (Some "Thumbnail of map").

(** The portal item of the map a view shows. *)
Definition item_of (w : World) (v : ref) : option PortalItem.t :=
  m ← MapView.map (store w v); WebMap.portalItem m.

Definition ready_entry (h : ref) : ConsoleEntry :=
  console_log "✅ MapView is ready:" (Some (arg_view h)).

Definition fallback_timer : Timer.t := Timer.mk (hide "timeout fallback") 5000.

(** Between two worlds the loader element is the same, or it was showing and
    is now hidden. *)
Definition hides_only (w w' : World) : Prop :=
  loader w' = loader w
  ∨ (loader_showing w = true ∧ loader w' = Some (Loader.mk true)).

(** With the loader not showing in the first world, the document and the
    console of the second are those of the first. *)
Definition quiet (w w' : World) : Prop :=
  loader_showing w = false → document w' = document w ∧ console w' = console w.

(** A program every run of which relates the world it starts in to the
    world it leaves by [R]. *)
Definition respects (R : World → World → Prop) {A} (m : M A) : Prop :=
  ∀ w, R w (world (m w)).

(** Everything of a view but its graphics. *)
Definition same_but_graphics (o o' : MapView.t) : Prop :=
  MapView.map o' = MapView.map o ∧ MapView.popup o' = MapView.popup o
  ∧ MapView.listeners o' = MapView.listeners o
  ∧ MapView.requests o' = MapView.requests o.

(** The world [updateHeaderFromPortalItem] leaves. *)
Definition update_header (w : World) : World :=
  match stored_portalItem w, navLogo w with
  | Some item, Some _ =>
      with_document (Document.with_navLogo (Some (header_of item)) (document w)) w
  | _, _ => w
  end.

(** Everything of a view but its listeners. *)
Definition same_but_listeners (o o' : MapView.t) : Prop :=
  MapView.map o' = MapView.map o ∧ MapView.graphics o' = MapView.graphics o
  ∧ MapView.popup o' = MapView.popup o
  ∧ MapView.requests o' = MapView.requests o.

(** What the callbacks leave alone: the stored handle, the header element,
    and of every view all but its listeners. *)
Definition callbacks_frame (w w' : World) : Prop :=
  _view w' = _view w ∧ navLogo w' = navLogo w
  ∧ ∀ v, same_but_listeners (store w v) (store w' v).

(** What the methods that act on the stored view leave alone: the timers,
    the console, the document, and every view but the stored one. *)
Definition stored_view_only (w w' : World) : Prop :=
  timers w' = timers w ∧ console w' = console w ∧ document w' = document w
  ∧ ∀ v, _view w ≠ Some v → store w' v = store w v.

(** ** Reasoning about runs *)

(** Unfolds the service and the monad down to runs, then computes. *)
Ltac run_js :=
  unfold after,
    App.arcgisViewReadyChange,
    MapService.setView, MapService.view, MapService.updateHeaderFromPortalItem,
    MapService.hideLoader, MapService.hideLoaderOnFirstLayerCreate,
    MapService.goTo, MapService.clearGraphics, MapService.dropMarker,
    Engine.on, Engine.remove, Engine.goTo, Engine.graphics_add,
    Engine.graphics_removeAll, Engine.popup_open, Engine.setTimeout,
    Engine.update, log, ret, gets, modify, call, throw,
    mbind, M_bind, mret, M_ret in *;
  cbn [trace world result app] in *.

(** ** The stored handle (C6) *)

Example view_before_setView :
  result (MapService.view (new_MapService page)) = Normal None.
Proof. reflexivity. Qed.

Example second_setView_wins :
  result ((MapService.setView 1;; MapService.setView 2;; MapService.view) page)
  = Normal (Some 2).
Proof. reflexivity. Qed.

(** C6. [setView] overwrites the stored handle and does nothing else, and
    [view] only reads it: nothing is stored in a new service; after
    [setView h1] the getter returns [h1]; after [setView h1] and then
    [setView h2] it returns [h2], whatever [h1] was. *)
Theorem setView_overwrites_view_reads (w : World) (h1 h2 : ref) :
  result (MapService.view (new_MapService w)) = Normal None
  ∧ MapService.setView h1 w = mkRun [svc_setView h1] (with_view (Some h1) w) (Normal tt)
  ∧ result ((MapService.setView h1;; MapService.view) w) = Normal (Some h1)
  ∧ result ((MapService.setView h1;; MapService.setView h2;; MapService.view) w)
    = Normal (Some h2)
  ∧ after (MapService.setView h1;; MapService.setView h2) w = with_view (Some h2) w
  ∧ MapService.view w = mkRun [] w (Normal (_view w)).
Proof. repeat split. Qed.

(** ** The header (C1) *)

Example header_of_parks :
  navLogo (after (MapService.setView 1;; MapService.updateHeaderFromPortalItem) page)
  = Some (NavLogo.mk (Some "Parks") (Some "") (Some "t.png") (Some "p.html")
            (Some "Thumbnail of map")).
Proof. reflexivity. Qed.

Example header_without_element :
  after (MapService.setView 1;; MapService.updateHeaderFromPortalItem)
    (with_document (Document.mk None None) page)
  = with_view (Some 1) (with_document (Document.mk None None) page).
Proof. reflexivity. Qed.

(** C1. [updateHeaderFromPortalItem] writes the five header fields together
    or not at all.  When the stored handle leads to a portal item and the
    header element exists, the element ends with heading = title,
    description = snippet (the empty string when the snippet is absent),
    thumbnail = thumbnail URL, href = item page URL and label =
    "Thumbnail of map", whatever it held before, and nothing else changes;
    when the item or the element is absent the world is left as it was. *)
Theorem updateHeader_all_or_nothing (w : World) :
  let r := MapService.updateHeaderFromPortalItem w in
  result r = Normal tt
  ∧ match stored_portalItem w, navLogo w with
    | Some item, Some _ =>
        navLogo (world r) = Some (NavLogo.mk
          (PortalItem.title item)
          (Some (match PortalItem.snippet item with Some s => s | None => "" end))
          (PortalItem.thumbnailUrl item)
          (PortalItem.itemPageUrl item)
          (Some "Thumbnail of map"))
        ∧ same_but_navLogo w (world r)
    | _, _ => world r = w
    end.
Proof.
  destruct w as [v s [logo ld] c t].
  unfold stored_portalItem, navLogo, same_but_navLogo, loader. run_js. cbn.
  destruct v as [v|]; cbn; [|done].
  destruct (MapView.map (s v)) as [[item]|]; cbn; [|done].
  by destruct item as [item|], logo as [logo|].
Qed.

(** ** The loader (C2) *)

Example hideLoader_twice_on_page :
  after (MapService.hideLoader None;; MapService.hideLoader (Some "again")) page
  = with_console [console_log "✅ Loader hidden (view ready)" None]
      (with_document (Document.mk (Some blank_logo) (Some (Loader.mk true))) page).
Proof. reflexivity. Qed.

(** C2. [hideLoader] is idempotent.  A call on a showing loader hides it and
    logs the reason once; a call when the loader is absent or already hidden
    changes nothing; so a second call in a row is always a no-op, and the
    world after two calls is the world after one. *)
Theorem hideLoader_idempotent (w : World) (reason reason' : option string) :
  let once := MapService.hideLoader reason w in
  let twice := (MapService.hideLoader reason;; MapService.hideLoader reason') w in
  result once = Normal tt ∧ result twice = Normal tt
  ∧ world twice = world once
  ∧ after (MapService.hideLoader reason') (world once) = world once
  ∧ loader_showing (world once) = false
  ∧ world once =
      (if loader_showing w
       then with_console (console w ++ [hidden_message reason])
              (with_document (Document.with_loader (Some (Loader.mk true)) (document w)) w)
       else w).
Proof.
  destruct w as [v s [logo [[[|]]|]] c t];
    unfold loader_showing, loader, hidden_message; run_js; cbn;
    repeat split.
Qed.

(** ** The ready notification (C3, C4, C5) *)

Example both_paths_prefers_detail :
  _view (after (App.arcgisViewReadyChange
                  (CustomEvent.mk (Some (Detail.mk (Some 1))) (Some (Target.mk (Some 2)))))
               page) = Some 1.
Proof. reflexivity. Qed.

Example empty_detail_falls_back :
  _view (after (App.arcgisViewReadyChange
                  (CustomEvent.mk (Some (Detail.mk None)) (Some (Target.mk (Some 2)))))
               page) = Some 2.
Proof. reflexivity. Qed.

Lemma view_of_paths (event : CustomEvent.t) :
  App.view_of event =
    match detail_view event with
    | Some v => Some v
    | None => target_view event
    end.
Proof. reflexivity. Qed.

(** What the handler does once it has a handle. *)
Lemma ready_run (event : CustomEvent.t) (w : World) (h : ref) :
  App.view_of event = Some h →
  App.arcgisViewReadyChange event w =
    (log (fired event);;
     log (console_log "✅ MapView is ready:" (Some (arg_view h)));;
     MapService.setView h;;
     MapService.updateHeaderFromPortalItem;;
     MapService.hideLoader (Some "view ready");;
     MapService.hideLoaderOnFirstLayerCreate;;
     Engine.setTimeout (hide "timeout fallback") 5000;;
     ret tt) w.
Proof.
  intros H. unfold App.arcgisViewReadyChange, fired. cbv zeta. rewrite H.
  reflexivity.
Qed.

(** C3. The handler takes the handle from [detail.view] when there is one and
    otherwise from [target.view], and stores it: a notification with a
    handle at [detail.view] has that one stored, and a notification with a
    handle only at [target.view] has that one stored. *)
Theorem handle_adopted_from_either_path (event : CustomEvent.t) (w : World) (h : ref) :
  detail_view event = Some h ∨ (detail_view event = None ∧ target_view event = Some h) →
  let r := App.arcgisViewReadyChange event w in
  App.view_of event = Some h
  ∧ _view (world r) = Some h
  ∧ head (trace r) = Some (svc_setView h)
  ∧ result r = Normal tt.
Proof.
  intros H r.
  assert (Hv : App.view_of event = Some h).
  { rewrite view_of_paths. destruct H as [->|[-> ->]]; reflexivity. }
  split; [exact Hv|]. subst r. rewrite (ready_run _ _ _ Hv).
  destruct w as [v s [logo ld] c t]. run_js. cbn.
  destruct (MapView.map (s h)) as [[[item|]]|], logo as [logo|],
    ld as [[[|]]|]; cbn; done.
Qed.

Lemma handle_adopted_from_target_only :
  let event := ready 1 in
  detail_view event = None ∧ target_view event = Some 1
  ∧ _view (after (App.arcgisViewReadyChange event) page) = Some 1.
Proof.
  split; [reflexivity|]. split; [reflexivity|].
  apply (handle_adopted_from_either_path (ready 1) page 1).
  right. split; reflexivity.
Defined.

(** C4. A notification with no handle at [detail.view] and none at
    [target.view] changes neither the stored handle, nor any view, nor the
    document, nor the timers; the handler calls nothing, logs that it fired
    and warns that no view was found, and returns normally. *)
Theorem no_handle_no_mutation (event : CustomEvent.t) (w : World) :
  detail_view event = None → target_view event = None →
  App.arcgisViewReadyChange event w =
    mkRun [] (with_console (console w ++ [fired event; not_found]) w) (Normal tt).
Proof.
  intros Hd Ht. unfold App.arcgisViewReadyChange. cbv zeta.
  rewrite view_of_paths, Hd, Ht. destruct w. run_js. cbn.
  by rewrite <- app_assoc.
Qed.

Lemma no_handle_no_mutation_on_page :
  let event := CustomEvent.mk (Some (Detail.mk None)) None in
  detail_view event = None ∧ target_view event = None
  ∧ App.arcgisViewReadyChange event page =
      mkRun [] (with_console [fired event; not_found] page) (Normal tt).
Proof.
  split; [reflexivity|]. split; [reflexivity|].
  exact (no_handle_no_mutation (CustomEvent.mk (Some (Detail.mk None)) None) page
           eq_refl eq_refl).
Defined.

(** C5. With a handle [h] extracted, the handler makes exactly these calls,
    in this order: [setView h], [updateHeaderFromPortalItem],
    [hideLoader "view ready"], [hideLoaderOnFirstLayerCreate] (which
    subscribes to "layerview-create" on [h]), and [setTimeout] of a
    [hideLoader "timeout fallback"] with a delay of 5000.  The timer is
    added in every world, also when the loader is absent or hidden by
    then. *)
Theorem ready_sequence (event : CustomEvent.t) (w : World) (h : ref) :
  App.view_of event = Some h →
  let r := App.arcgisViewReadyChange event w in
  result r = Normal tt
  ∧ trace r =
      [ svc_setView h;
        svc_updateHeaderFromPortalItem;
        svc_hideLoader "view ready";
        svc_hideLoaderOnFirstLayerCreate;
        view_on h "layerview-create"
          (Handle.mk h (Engine.fresh (MapView.listeners (store w h))));
        window_setTimeout (hide "timeout fallback") 5000 ]
  ∧ timers (world r) = timers w ++ [Timer.mk (hide "timeout fallback") 5000]
  ∧ loader_showing (world r) = false
  ∧ Host.run_timer (hide "timeout fallback") = MapService.hideLoader (Some "timeout fallback")
  ∧ world r =
      after (MapService.setView h;;
             MapService.updateHeaderFromPortalItem;;
             MapService.hideLoader (Some "view ready");;
             MapService.hideLoaderOnFirstLayerCreate;;
             Engine.setTimeout (hide "timeout fallback") 5000)
        (with_console
           (console w ++ [fired event; console_log "✅ MapView is ready:" (Some (arg_view h))])
           w).
Proof.
  intros Hv r. subst r. rewrite (ready_run _ _ _ Hv).
  destruct w as [v s [logo ld] c t]. unfold loader_showing, loader. run_js. cbn.
  rewrite <- !app_assoc. cbn.
  destruct (MapView.map (s h)) as [[[item|]]|], logo as [logo|],
    ld as [[[|]]|]; cbn; repeat split.
Qed.

Lemma ready_sequence_on_page :
  App.view_of (ready 1) = Some 1
  ∧ trace (App.arcgisViewReadyChange (ready 1) page) =
      [ svc_setView 1;
        svc_updateHeaderFromPortalItem;
        svc_hideLoader "view ready";
        svc_hideLoaderOnFirstLayerCreate;
        view_on 1 "layerview-create" (Handle.mk 1 1);
        window_setTimeout (hide "timeout fallback") 5000 ].
Proof.
  split; [reflexivity|].
  exact (proj1 (proj2 (ready_sequence (ready 1) page 1 eq_refl))).
Defined.

(** ** Absent dependencies (C7) and the frame of the stored handle (C10) *)

Example goTo_without_handle :
  MapService.goTo (10%float, 20%float) (Some 5%float) page
  = mkRun [svc_goTo (10%float, 20%float) 5%float] page (Normal None).
Proof. reflexivity. Qed.

(** Each operation looks for the handle or the element it needs first and
    is a silent no-op without it.  With no handle stored,
    [hideLoaderOnFirstLayerCreate], [goTo], [clearGraphics] and [dropMarker]
    leave the world as it is and return normally, [goTo] returning nothing;
    [updateHeaderFromPortalItem] does so when the portal item or the header
    element is absent, and [hideLoader] when the loader element is absent. *)
Lemma absent_dependency_is_noop (w : World) :
  (_view w = None →
     silent_noop (MapService.hideLoaderOnFirstLayerCreate w)
       svc_hideLoaderOnFirstLayerCreate w tt
     ∧ (∀ center zoom,
          silent_noop (MapService.goTo center zoom w)
            (svc_goTo center (default 10%float zoom)) w None)
     ∧ silent_noop (MapService.clearGraphics w) svc_clearGraphics w tt
     ∧ (∀ lon lat title,
          silent_noop (MapService.dropMarker lon lat title w)
            (svc_dropMarker lon lat (default "Point" title)) w tt))
  ∧ (stored_portalItem w = None ∨ navLogo w = None →
     silent_noop (MapService.updateHeaderFromPortalItem w)
       svc_updateHeaderFromPortalItem w tt)
  ∧ (loader w = None →
     ∀ reason,
       silent_noop (MapService.hideLoader reason w)
         (svc_hideLoader (default "view ready" reason)) w tt).
Proof.
  destruct w as [v s [logo ld] c t].
  unfold silent_noop, stored_portalItem, navLogo, loader. cbn.
  split; [|split].
  - intros ->. repeat split.
  - run_js. cbn. destruct v as [v|]; cbn.
    + destruct (MapView.map (s v)) as [[[item|]]|]; cbn.
      * intros [?| ->]; done.
      * done.
      * done.
    + done.
  - intros -> reason. reflexivity.
Qed.

Lemma absent_dependency_on_page :
  _view page = None
  ∧ MapService.dropMarker 1%float 2%float None page
    = mkRun [svc_dropMarker 1%float 2%float "Point"] page (Normal tt)
  ∧ MapService.goTo (10%float, 20%float) (Some 5%float) page
    = mkRun [svc_goTo (10%float, 20%float) 5%float] page (Normal None).
Proof.
  split; [reflexivity|].
  pose proof (proj1 (absent_dependency_is_noop page) eq_refl) as (_ & Hgo & _ & Hdrop).
  split; [exact (Hdrop 1%float 2%float None)|exact (Hgo (10%float, 20%float) (Some 5%float))].
Defined.

(** C7. Not every operation is safe.  Once the ready handler has stored a
    view that has just become ready, whose popup is still the placeholder,
    [dropMarker(-117.2, 34, "Camp")] adds the marker and then throws at
    [popup!.open]: the popup is the one optional dependency the service
    uses without looking first. *)
Theorem dropMarker_fatal_on_fresh_view :
  let w := after (App.arcgisViewReadyChange (ready 3)) fresh_page in
  let g := marker (-117.2)%float 34%float (Some "Camp") in
  let r := MapService.dropMarker (-117.2)%float 34%float (Some "Camp") w in
  _view w = Some 3
  ∧ popup_of w 3 = Some Popup.placeholder
  ∧ result r = Throw (TypeError "this._view.popup.open is not a function")
  ∧ trace r = [svc_dropMarker (-117.2)%float 34%float "Camp"; view_graphics_add 3 g]
  ∧ graphics_of (world r) 3 = [g].
Proof. repeat split. Qed.

(** With their dependencies present or not, five of the operations always
    return normally. *)
Lemma five_never_throw (w : World) :
  result (MapService.updateHeaderFromPortalItem w) = Normal tt
  ∧ (∀ reason, result (MapService.hideLoader reason w) = Normal tt)
  ∧ result (MapService.hideLoaderOnFirstLayerCreate w) = Normal tt
  ∧ (∀ center zoom, ∃ p, result (MapService.goTo center zoom w) = Normal p)
  ∧ result (MapService.clearGraphics w) = Normal tt.
Proof.
  destruct w as [v s [logo ld] c t]. run_js. cbn. repeat split; intros.
  - destruct v as [v|]; cbn; [|done].
    by destruct (MapView.map (s v)) as [[[item|]]|], logo.
  - by destruct ld as [[[|]]|].
  - by destruct v.
  - destruct v; eauto.
  - by destruct v.
Qed.

(** X4. [dropMarker] throws exactly when a handle is stored whose popup
    cannot be opened: it is absent, or it is the placeholder without an
    [open] method.  The code checks the handle, not the popup. *)
Lemma dropMarker_throws_iff (w : World) (lon lat : number) (title : option string) :
  (∃ e, result (MapService.dropMarker lon lat title w) = Throw e)
  ↔ ∃ v, _view w = Some v
         ∧ (popup_of w v = None ∨ popup_of w v = Some Popup.placeholder).
Proof.
  destruct w as [sv s d c t]. unfold popup_of. run_js. cbn.
  destruct sv as [v|]; cbn.
  - rewrite fn_lookup_insert. cbn.
    destruct (MapView.popup (s v)) as [[|shown]|] eqn:Hp; cbn.
    + split; [|by eauto]. intros _. exists v. split; [done|]. by right.
    + split; [by intros [e ?]|].
      intros (v' & [= <-] & [Hn|Hn]); congruence.
    + split; [|by eauto]. intros _. exists v. split; [done|]. by left.
  - split; [by intros [e ?]|]. by intros (v' & ? & _).
Qed.

(** *** Runs that leave the stored handle alone *)

Lemma keeps_view_ret {A} (a : A) : keeps_view (ret a).
Proof. done. Qed.

Lemma keeps_view_gets {A} (f : World → A) : keeps_view (gets f).
Proof. done. Qed.

Lemma keeps_view_call (c : Call) : keeps_view (call c).
Proof. done. Qed.

Lemma keeps_view_throw {A} (e : Exn) : keeps_view (@throw A e).
Proof. done. Qed.

Lemma keeps_view_modify (f : World → World) :
  (∀ w, _view (f w) = _view w) → keeps_view (modify f).
Proof. intros H w. apply H. Qed.

Lemma keeps_view_bind {A B} (m : M A) (f : A → M B) :
  keeps_view m → (∀ a, keeps_view (f a)) → keeps_view (m ≫= f).
Proof.
  intros Hm Hf w. specialize (Hm w). unfold mbind, M_bind.
  destruct (m w) as [t1 w1 [a|e]]; cbn in *; [|done].
  specialize (Hf a w1). destruct (f a w1) as [t2 w2 c2]; cbn in *. congruence.
Qed.

Create HintDb frame.
#[local] Hint Resolve keeps_view_ret keeps_view_gets keeps_view_call
  keeps_view_throw : frame.

(** Splits a program into its steps, and cases on what it branches on. *)
Ltac frame_step :=
  lazymatch goal with
  | |- keeps_view (_ ≫= _) => apply keeps_view_bind; [|intros ?]
  | |- keeps_view (modify _) => apply keeps_view_modify; intros []; reflexivity
  | |- keeps_view (match ?x with _ => _ end) => destruct x
  | |- keeps_view ((match ?x with _ => _ end) _) => destruct x
  | |- keeps_view (if ?x then _ else _) => destruct x
  | |- keeps_view _ => first [solve [auto with frame] | progress cbv zeta]
  end.

Ltac frame := repeat frame_step.

Lemma keeps_view_log (e : ConsoleEntry) : keeps_view (log e).
Proof. unfold log. frame. Qed.

Lemma keeps_view_update (v : ref) (f : MapView.t → MapView.t) :
  keeps_view (Engine.update v f).
Proof. unfold Engine.update. frame. Qed.

#[local] Hint Resolve keeps_view_log keeps_view_update : frame.

Lemma keeps_view_hideLoader (reason : option string) :
  keeps_view (MapService.hideLoader reason).
Proof. unfold MapService.hideLoader. cbv zeta. frame. Qed.

Lemma keeps_view_remove (h : Handle.t) : keeps_view (Engine.remove h).
Proof. unfold Engine.remove. frame. Qed.

#[local] Hint Resolve keeps_view_hideLoader keeps_view_remove : frame.

Lemma keeps_view_deliver (v : ref) (ls : list MapView.Listener) :
  keeps_view (Host.deliver v ls).
Proof.
  induction ls as [|l ls IH]; cbn [Host.deliver]; [frame|].
  cbv zeta. unfold Host.run_listener. frame.
Qed.

#[local] Hint Resolve keeps_view_deliver : frame.

(** C10. Only [setView] writes the stored handle: in every world,
    [updateHeaderFromPortalItem], [hideLoader], [hideLoaderOnFirstLayerCreate],
    [goTo], [clearGraphics] and [dropMarker] (also when it throws) leave it
    as it was. *)
Theorem stored_view_frame (w : World) :
  _view (after MapService.updateHeaderFromPortalItem w) = _view w
  ∧ (∀ reason, _view (after (MapService.hideLoader reason) w) = _view w)
  ∧ _view (after MapService.hideLoaderOnFirstLayerCreate w) = _view w
  ∧ (∀ center zoom, _view (after (MapService.goTo center zoom) w) = _view w)
  ∧ _view (after MapService.clearGraphics w) = _view w
  ∧ (∀ lon lat title,
       _view (after (MapService.dropMarker lon lat title) w) = _view w).
Proof.
  repeat split; intros; revert w; unfold after;
    lazymatch goal with |- ∀ w, _view (world (?m w)) = _view w =>
      change (keeps_view m) end.
  - unfold MapService.updateHeaderFromPortalItem. frame.
  - apply keeps_view_hideLoader.
  - unfold MapService.hideLoaderOnFirstLayerCreate, Engine.on. frame.
  - unfold MapService.goTo, Engine.goTo. cbv zeta. frame.
  - unfold MapService.clearGraphics, Engine.graphics_removeAll. frame.
  - unfold MapService.dropMarker, Engine.graphics_add, Engine.popup_open.
    cbv zeta. frame.
Qed.

(** The callbacks the host delivers do not write it either. *)
Lemma keeps_view_host (os : list Host.Occurrence) : keeps_view (Host.run os).
Proof.
  induction os as [|o os IH]; cbn [Host.run]; [frame|].
  apply keeps_view_bind; [|intros _; exact IH].
  destruct o as [v ty|n]; cbn [Host.occur].
  - unfold Host.emit. frame.
  - unfold Host.expire, Host.run_timer. frame.
Qed.

(** ** Markers (C8) *)

Example camp_marker :
  let r := (MapService.setView 1;;
            MapService.dropMarker (-117.2)%float 34%float (Some "Camp")) page in
  graphics_of (world r) 1 = [marker (-117.2)%float 34%float (Some "Camp")]
  ∧ popup_of (world r) 1 =
      Some (Popup.widget (Some (Popup.mkOptions
        [marker (-117.2)%float 34%float (Some "Camp")]
        (Graphic.point (-117.2)%float 34%float))))
  ∧ result r = Normal tt.
Proof. repeat split. Qed.

(** View 2 of [page] has no popup control. *)
Example marker_stays_when_popup_fails :
  let r := (MapService.setView 2;;
            MapService.dropMarker (-117.2)%float 34%float (Some "Camp")) page in
  graphics_of (world r) 2 = [marker (-117.2)%float 34%float (Some "Camp")]
  ∧ result r = Throw (TypeError "Cannot read properties of undefined (reading 'open')").
Proof. repeat split. Qed.

(** View 3 of [fresh_page] has the placeholder for a popup. *)
Example marker_stays_on_fresh_view :
  let r := (MapService.setView 3;;
            MapService.dropMarker (-117.2)%float 34%float (Some "Camp")) fresh_page in
  graphics_of (world r) 3 = [marker (-117.2)%float 34%float (Some "Camp")]
  ∧ popup_of (world r) 3 = Some Popup.placeholder
  ∧ result r = Throw (TypeError "this._view.popup.open is not a function").
Proof. repeat split. Qed.

(** C8. With a handle [v] stored, [dropMarker lon lat title] first adds one
    graphic at the end of [v]'s collection: point geometry (lon, lat),
    attributes title (or "Point"), lon, lat, and the fixed template; an empty
    collection has one entry afterwards.  Then, as a second step, it opens
    [v]'s popup with that graphic as the only feature, located at the
    graphic's geometry: on a loaded popup widget the call is made and the
    popup shows the graphic.  When the open fails, which it does when the
    popup is absent and when it is the placeholder without an [open]
    method, the operation throws, no call is made, the popup is as it was,
    and the graphic added before stays in the collection.  No other view is
    touched. *)
Theorem dropMarker_adds_then_opens
    (w : World) (v : ref) (lon lat : number) (title : option string) :
  _view w = Some v →
  let g := marker lon lat title in
  let o := Popup.mkOptions [g] (Graphic.geometry g) in
  let r := MapService.dropMarker lon lat title w in
  graphics_of (world r) v = graphics_of w v ++ [g]
  ∧ (graphics_of w v = [] → length (graphics_of (world r) v) = 1)
  ∧ (∀ v', v' ≠ v → store (world r) v' = store w v')
  ∧ match popup_of w v with
    | Some (Popup.widget _) =>
        result r = Normal tt
        ∧ trace r = [svc_dropMarker lon lat (default "Point" title);
                     view_graphics_add v g; view_popup_open v o]
        ∧ popup_of (world r) v = Some (Popup.widget (Some o))
    | Some Popup.placeholder =>
        result r = Throw (TypeError "this._view.popup.open is not a function")
        ∧ trace r = [svc_dropMarker lon lat (default "Point" title);
                     view_graphics_add v g]
        ∧ popup_of (world r) v = Some Popup.placeholder
    | None =>
        result r
        = Throw (TypeError "Cannot read properties of undefined (reading 'open')")
        ∧ trace r = [svc_dropMarker lon lat (default "Point" title);
                     view_graphics_add v g]
        ∧ popup_of (world r) v = None
    end.
Proof.
  intros Hv g o r. subst g o r.
  destruct w as [sv s d c t]. cbn in Hv. subst sv.
  unfold graphics_of, popup_of, marker. run_js. cbn.
  rewrite !fn_lookup_insert. cbn.
  destruct (MapView.popup (s v)) as [[|shown]|] eqn:Hp; cbn;
    rewrite ?fn_lookup_insert; cbn;
    (split; [done|]; split; [by intros ->|]; split; [|done]);
    intros v' Hne; by rewrite !fn_lookup_insert_ne.
Qed.

Lemma dropMarker_camp :
  let w := with_view (Some 1) page in
  let g := marker (-117.2)%float 34%float (Some "Camp") in
  _view w = Some 1
  ∧ graphics_of w 1 = []
  ∧ graphics_of (after (MapService.dropMarker (-117.2)%float 34%float (Some "Camp")) w) 1
    = [g].
Proof.
  split; [reflexivity|]. split; [reflexivity|].
  exact (proj1 (dropMarker_adds_then_opens (with_view (Some 1) page) 1
                  (-117.2)%float 34%float (Some "Camp") eq_refl)).
Defined.

(** ** The one-shot subscription (C9) *)

Lemma invocations_app (h : Handle.t) (t1 t2 : list Call) :
  invocations h (t1 ++ t2) = invocations h t1 + invocations h t2.
Proof. unfold invocations. by rewrite List.filter_app, length_app. Qed.

(** *** Runs, step by step *)

Lemma bind_run {A B} (m : M A) (f : A → M B) (w : World) t1 w1 a :
  m w = mkRun t1 w1 (Normal a) →
  (m ≫= f) w = mkRun (t1 ++ trace (f a w1)) (world (f a w1)) (result (f a w1)).
Proof. intros H. unfold mbind, M_bind. rewrite H. by destruct (f a w1). Qed.

Lemma hideLoader_run (reason : option string) (w : World) :
  MapService.hideLoader reason w =
    mkRun [svc_hideLoader (default "view ready" reason)] (hide_in reason w) (Normal tt).
Proof. by destruct w as [v s [logo [[[|]]|]] c t]. Qed.

Lemma hide_in_store reason w : store (hide_in reason w) = store w.
Proof. unfold hide_in. by destruct (loader_showing w). Qed.

Lemma hide_in_hidden reason w : loader_showing (hide_in reason w) = false.
Proof. by destruct w as [v s [logo [[[|]]|]] c t]. Qed.

Lemma remove_run (h : Handle.t) (w : World) :
  Engine.remove h w = mkRun [handle_remove h] (unsubscribe h w) (Normal tt).
Proof. reflexivity. Qed.

Lemma run_listener_run (h : Handle.t) (reason : string) (w : World) :
  Host.run_listener h (hide_and_unsubscribe reason) w =
    mkRun [svc_hideLoader reason; handle_remove h]
      (unsubscribe h (hide_in (Some reason) w)) (Normal tt).
Proof.
  unfold Host.run_listener.
  rewrite (bind_run _ _ _ _ _ _ (hideLoader_run (Some reason) w)).
  by rewrite remove_run.
Qed.

Lemma unsubscribe_listeners (h : Handle.t) (w : World) (v : ref) :
  listeners_of (unsubscribe h w) v =
    if decide (v = Handle.owner h)
    then filter (λ l, MapView.id l ≠ Handle.registration h) (listeners_of w v)
    else listeners_of w v.
Proof.
  unfold unsubscribe, listeners_of. destruct w as [sv s d c t]. cbn.
  case_decide as Hv.
  - subst v. by rewrite fn_lookup_insert.
  - by rewrite fn_lookup_insert_ne.
Qed.

Lemma unsubscribe_showing h w : loader_showing (unsubscribe h w) = loader_showing w.
Proof. by destruct w. Qed.

(** *** Filters *)

Lemma filter_all {A} (P : A → Prop) `{∀ x, Decision (P x)} (l : list A) :
  (∀ x, x ∈ l → P x) → filter P l = l.
Proof.
  induction l as [|x l IH]; intros Hl; [done|].
  rewrite filter_cons_True by (apply Hl; left).
  f_equal. apply IH. intros y Hy. apply Hl. by right.
Qed.

Lemma filter_none {A} (P : A → Prop) `{∀ x, Decision (P x)} (l : list A) :
  (∀ x, x ∈ l → ¬ P x) → filter P l = [].
Proof.
  induction l as [|x l IH]; intros Hl; [done|].
  rewrite filter_cons_False by (apply Hl; left).
  apply IH. intros y Hy. apply Hl. by right.
Qed.

Lemma filter_comm {A} (P Q : A → Prop)
    `{∀ x, Decision (P x)} `{∀ x, Decision (Q x)} (l : list A) :
  filter P (filter Q l) = filter Q (filter P l).
Proof.
  rewrite !list_filter_filter. apply list_filter_iff. intros x. tauto.
Qed.

(** *** Delivery *)

(** An emission runs to its end; it calls the listener registered under [h]
    once for each entry of the snapshot that is [h]'s; the listeners it
    called are gone from the view afterwards and no other view changes; and
    if it called any listener the loader is no longer showing. *)
Lemma deliver_run (h : Handle.t) (v : ref) (ls : list MapView.Listener) (w : World) :
  let r := Host.deliver v ls w in
  result r = Normal tt
  ∧ invocations h (trace r)
    = length (filter (λ l, Handle.mk v (MapView.id l) = h) ls)
  ∧ (∀ v', listeners_of (world r) v' =
       if decide (v' = v)
       then filter (λ l, MapView.id l ∉ ids ls) (listeners_of w v')
       else listeners_of w v')
  ∧ loader_showing (world r) = match ls with [] => loader_showing w | _ => false end.
Proof.
  revert w. induction ls as [|[i ty [reason]] ls IH]; intros w; cbv zeta.
  - cbn. repeat split. intros v'. case_decide; [|done].
    symmetry. apply filter_all. intros l _. apply not_elem_of_nil.
  - cbn [Host.deliver]. cbv zeta. cbn [MapView.id MapView.callback].
    set (h0 := Handle.mk v i).
    rewrite (bind_run (call (listener_invoked h0)) _ w [listener_invoked h0] w tt eq_refl).
    rewrite (bind_run _ _ _ _ _ _ (run_listener_run h0 reason w)).
    cbn [trace world result].
    set (w2 := unsubscribe h0 (hide_in (Some reason) w)).
    destruct (IH w2) as (Hres & Hinv & Hls & Hshow). cbv zeta in *.
    split; [exact Hres|]. split; [|split].
    + rewrite !invocations_app, Hinv. rewrite filter_cons. cbn [MapView.id].
      unfold invocations. cbn [List.filter is_invocation length].
      fold h0. destruct (decide (h0 = h)) as [Hh|Hh].
      * by rewrite bool_decide_eq_true_2.
      * by rewrite bool_decide_eq_false_2.
    + intros v'. rewrite Hls. unfold w2. rewrite unsubscribe_listeners.
      unfold listeners_of. rewrite hide_in_store. cbn [Handle.owner Handle.registration h0].
      case_decide as Hv; [|done].
      rewrite list_filter_filter. apply list_filter_iff. intros l.
      unfold ids. rewrite fmap_cons. cbn [MapView.id]. rewrite not_elem_of_cons. tauto.
    + rewrite Hshow. unfold w2. rewrite unsubscribe_showing, hide_in_hidden.
      by destruct ls.
Qed.

Lemma emit_deliver (v : ref) (type : string) (w : World) :
  Host.emit v type w =
    Host.deliver v (filter (λ l, MapView.type l = type) (listeners_of w v)) w.
Proof.
  unfold Host.emit.
  rewrite (bind_run (gets store) _ w [] w (store w) eq_refl).
  cbn [app]. by destruct (Host.deliver _ _ w).
Qed.

(** What an emission does to the listeners registered under [h]: those of
    the emitted type are called, once each; if there was one to call, the
    whole registration is gone afterwards and the loader is hidden; if there
    was none, the registration is as before. *)
Lemma emit_run (h : Handle.t) (v : ref) (type : string) (w : World) :
  let r := Host.emit v type w in
  let called := filter (λ l, MapView.type l = type) (registered h w) in
  result r = Normal tt
  ∧ invocations h (trace r) = (if decide (v = Handle.owner h) then length called else 0)
  ∧ registered h (world r) =
      (if decide (v = Handle.owner h)
       then match called with [] => registered h w | _ => [] end
       else registered h w)
  ∧ (loader_showing w = false → loader_showing (world r) = false)
  ∧ (v = Handle.owner h → called ≠ [] → loader_showing (world r) = false).
Proof.
  cbv zeta. rewrite emit_deliver.
  set (ls := filter (λ l, MapView.type l = type) (listeners_of w v)).
  destruct (deliver_run h v ls w) as (Hres & Hinv & Hls & Hshow). cbv zeta in *.
  destruct h as [o n]. unfold registered in *. cbn [Handle.owner Handle.registration] in *.
  split; [exact Hres|]. split; [|split; [|split]].
  - rewrite Hinv. case_decide as Hv.
    + subst o. unfold ls. f_equal.
      rewrite (list_filter_iff
                 (λ l, Handle.mk v (MapView.id l) = Handle.mk v n)
                 (λ l, MapView.id l = n)).
      * apply filter_comm.
      * intros l. split; [by intros [= ->]|by intros ->].
    + rewrite filter_none; [done|]. intros l _ [= ? ?]. done.
  - rewrite Hls. destruct (decide (v = o)) as [->|Hv].
    + rewrite decide_True by done. rewrite filter_comm.
      set (A := filter (λ l, MapView.id l = n) (listeners_of w o)).
      destruct (filter (λ l, MapView.type l = type) A) as [|l0 called] eqn:Hcalled.
      * apply filter_all. intros l Hl Hin.
        apply list_elem_of_fmap in Hin as (l' & Hid & Hl').
        apply list_elem_of_filter in Hl as [Hn _].
        apply list_elem_of_filter in Hl' as [Hty Hl'].
        assert (Hmem : l' ∈ filter (λ l, MapView.type l = type) A).
        { apply list_elem_of_filter. split; [done|].
          apply list_elem_of_filter. split; [congruence|done]. }
        rewrite Hcalled in Hmem. by apply elem_of_nil in Hmem.
      * apply filter_none. intros l Hl Hnot. apply Hnot.
        assert (Hmem : l0 ∈ filter (λ l, MapView.type l = type) A)
          by (rewrite Hcalled; left).
        apply list_elem_of_filter in Hmem as [Hty Hmem].
        apply list_elem_of_filter in Hmem as [Hn0 Hmem].
        apply list_elem_of_filter in Hl as [Hn _].
        apply list_elem_of_fmap. exists l0. split; [congruence|].
        apply list_elem_of_filter. done.
    + by rewrite (decide_False (P := o = v)) by congruence.
  - intros Hw. rewrite Hshow. by destruct ls.
  - intros -> Hcalled. rewrite Hshow.
    destruct ls as [|l ls'] eqn:Hls'; [|done].
    exfalso. apply Hcalled. apply filter_none. intros l Hl Hty.
    apply list_elem_of_filter in Hl as [_ Hl].
    assert (Hmem : l ∈ ls) by (apply list_elem_of_filter; done).
    rewrite Hls' in Hmem. by apply elem_of_nil in Hmem.
Qed.

(** An expired timer calls no listener and changes no view. *)
Lemma expire_run (h : Handle.t) (n : nat) (w : World) :
  let r := Host.expire n w in
  result r = Normal tt
  ∧ invocations h (trace r) = 0
  ∧ store (world r) = store w
  ∧ (loader_showing w = false → loader_showing (world r) = false).
Proof.
  cbv zeta. unfold Host.expire.
  rewrite (bind_run (gets timers) _ w [] w (timers w) eq_refl).
  destruct (timers w !! n) as [[[reason] ms]|]; [|done].
  rewrite (bind_run (modify _) _ w [] _ tt eq_refl).
  cbn [Host.run_timer Timer.handler]. rewrite hideLoader_run.
  cbn [trace world result app]. repeat split.
  - by rewrite hide_in_store.
  - intros _. apply hide_in_hidden.
Qed.

Lemma run_cons (o : Host.Occurrence) (os : list Host.Occurrence) (w : World) :
  result (Host.occur o w) = Normal tt →
  Host.run (o :: os) w =
    mkRun (trace (Host.occur o w) ++ trace (Host.run os (world (Host.occur o w))))
      (world (Host.run os (world (Host.occur o w))))
      (result (Host.run os (world (Host.occur o w)))).
Proof.
  intros H. cbn [Host.run]. destruct (Host.occur o w) as [t1 w1 c1] eqn:Ho.
  cbn in H. subst c1. by rewrite (bind_run _ _ _ _ _ _ Ho).
Qed.

(** What one occurrence does to the registration [h]. *)
Lemma occur_run (h : Handle.t) (o : Host.Occurrence) (w : World) :
  let r := Host.occur o w in
  result r = Normal tt
  ∧ invocations h (trace r) + length (registered h (world r)) ≤ length (registered h w)
  ∧ (loader_showing w = false → loader_showing (world r) = false).
Proof.
  destruct o as [v ty|n]; cbn [Host.occur]; cbv zeta.
  - destruct (emit_run h v ty w) as (Hres & Hinv & Hreg & Hshow & _). cbv zeta in *.
    split; [done|]. split; [|done]. rewrite Hinv, Hreg.
    case_decide; [|cbn; lia].
    pose proof (length_filter (λ l, MapView.type l = ty) (registered h w)).
    destruct (filter (λ l, MapView.type l = ty) (registered h w)); cbn in *; lia.
  - destruct (expire_run h n w) as (Hres & Hinv & Hst & Hshow). cbv zeta in *.
    split; [done|]. split; [|done]. rewrite Hinv. unfold registered, listeners_of.
    rewrite Hst. lia.
Qed.

(** Over a whole stream, the listener registered under [h] is called at most
    as many times as there are entries registered under [h]. *)
Lemma run_bounded (h : Handle.t) (os : list Host.Occurrence) (w : World) :
  let r := Host.run os w in
  result r = Normal tt
  ∧ invocations h (trace r) + length (registered h (world r)) ≤ length (registered h w)
  ∧ (loader_showing w = false → loader_showing (world r) = false).
Proof.
  revert w. induction os as [|o os IH]; intros w; cbv zeta; [cbn; auto with lia|].
  destruct (occur_run h o w) as (Hres & Hbound & Hshow). cbv zeta in *.
  rewrite (run_cons o os w Hres). cbn [trace world result].
  destruct (IH (world (Host.occur o w))) as (Hres' & Hbound' & Hshow').
  cbv zeta in *. rewrite invocations_app. split; [done|]. split; [lia|auto].
Qed.

(** While every entry registered under [h] listens to [type]: the listener
    is called on the first emission of [type] by [h]'s view, once for each
    entry, and never on any other occurrence; after that first emission
    nothing is registered under [h] any more. *)
Lemma run_first (h : Handle.t) (type : string) (os : list Host.Occurrence) (w : World) :
  (∀ l, l ∈ registered h w → MapView.type l = type) →
  let r := Host.run os w in
  let first := Host.emitted (Handle.owner h) type in
  invocations h (trace r)
    = (if bool_decide (first ∈ os) then length (registered h w) else 0)
  ∧ (first ∈ os →
     registered h (world r) = []
     ∧ (registered h w ≠ [] → loader_showing (world r) = false)).
Proof.
  revert w. induction os as [|o os IH]; intros w J; cbv zeta.
  - split; [done|]. by intros ?%elem_of_nil.
  - destruct (occur_run h o w) as (Hres & _ & _). cbv zeta in Hres.
    rewrite (run_cons o os w Hres). cbn [trace world result].
    rewrite invocations_app.
    destruct (decide (o = Host.emitted (Handle.owner h) type)) as [->|Ho].
    + cbn [Host.occur] in *.
      destruct (emit_run h (Handle.owner h) type w) as (_ & Hinv & Hreg & _ & Hshow).
      cbv zeta in *.
      rewrite decide_True in Hinv by done. rewrite decide_True in Hreg by done.
      rewrite (filter_all _ (registered h w) J) in Hinv.
      rewrite (filter_all _ (registered h w) J) in Hreg.
      rewrite (filter_all _ (registered h w) J) in Hshow.
      assert (Hgone : registered h (world (Host.emit (Handle.owner h) type w)) = []).
      { rewrite Hreg. by destruct (registered h w). }
      destruct (run_bounded h os (world (Host.emit (Handle.owner h) type w)))
        as (_ & Hbound & Hkeep). cbv zeta in *.
      rewrite Hgone in Hbound. cbn in Hbound.
      rewrite bool_decide_eq_true_2 by left.
      split; [lia|]. intros _. split.
      * apply length_zero_iff_nil. lia.
      * intros Hne. apply Hkeep. by apply Hshow.
    + assert (Hsame : invocations h (trace (Host.occur o w)) = 0
                      ∧ registered h (world (Host.occur o w)) = registered h w).
      { destruct o as [v ty|n]; cbn [Host.occur].
        - destruct (emit_run h v ty w) as (_ & Hinv & Hreg & _). cbv zeta in *.
          rewrite Hinv, Hreg. case_decide as Hv; [|done]. subst v.
          rewrite filter_none; [done|]. intros l Hl Hty.
          apply Ho. f_equal. rewrite <- Hty. by apply J.
        - destruct (expire_run h n w) as (_ & Hinv & Hst & _). cbv zeta in *.
          split; [done|]. unfold registered, listeners_of. by rewrite Hst. }
      destruct Hsame as [Hinv Hreg].
      destruct (IH (world (Host.occur o w))) as [IHinv IHgone].
      { rewrite Hreg. exact J. }
      cbv zeta in *. rewrite Hinv, IHinv, Hreg. cbn [Nat.add].
      split.
      * destruct (decide (Host.emitted (Handle.owner h) type ∈ os)) as [Hin|Hin].
        -- rewrite !bool_decide_eq_true_2; [done|by right|done].
        -- rewrite !bool_decide_eq_false_2; [done| |done].
           intros [?|?]%elem_of_cons; [by apply Ho|done].
      * intros [?|Hin]%elem_of_cons; [by exfalso; apply Ho|].
        rewrite <- Hreg. by apply IHgone.
Qed.

Lemma fresh_above (ls : list MapView.Listener) (l : MapView.Listener) :
  l ∈ ls → MapView.id l < Engine.fresh ls.
Proof.
  unfold Engine.fresh. induction ls as [|l' ls IH]; [by intros ?%elem_of_nil|].
  intros [->|Hl]%elem_of_cons; cbn; [lia|]. specialize (IH Hl). lia.
Qed.

Lemma subscribe_run (w : World) (v : ref) :
  _view w = Some v →
  let h := Handle.mk v (Engine.fresh (listeners_of w v)) in
  let sub := MapService.hideLoaderOnFirstLayerCreate w in
  result sub = Normal tt
  ∧ trace sub = [svc_hideLoaderOnFirstLayerCreate; view_on v "layerview-create" h]
  ∧ listeners_of (world sub) v
    = listeners_of w v ++ [first_layer_listener (Handle.registration h)]
  ∧ registered h (world sub) = [first_layer_listener (Handle.registration h)].
Proof.
  intros Hv. destruct w as [sv s d c t]. cbn in Hv. subst sv.
  unfold registered, listeners_of, first_layer_listener. run_js. cbn.
  rewrite fn_lookup_insert. cbn. repeat split.
  rewrite list.filter_app, filter_cons_True by done.
  rewrite filter_none; [done|]. intros l Hl Hid.
  apply fresh_above in Hl. lia.
Qed.

Example two_layers_one_dismissal :
  let r := (MapService.setView 1;;
            MapService.hideLoaderOnFirstLayerCreate;;
            Host.run [Host.emitted 1 "layerview-create";
                      Host.emitted 1 "layerview-create"]) page in
  trace r =
    [ svc_setView 1;
      svc_hideLoaderOnFirstLayerCreate;
      view_on 1 "layerview-create" (Handle.mk 1 1);
      listener_invoked (Handle.mk 1 1);
      svc_hideLoader "layerview-create";
      handle_remove (Handle.mk 1 1) ]
  ∧ listeners_of (world r) 1 = []
  ∧ loader_showing (world r) = false.
Proof. repeat split. Qed.

(** C9. With no handle stored, [hideLoaderOnFirstLayerCreate] is a no-op.
    With a handle [v] stored, it registers one listener for
    "layerview-create" on [v].  Over any stream of emissions and timer
    expiries that follows, that listener is called at most once: exactly
    once if [v] emits "layerview-create" at all (on the first such emission),
    and never otherwise.  Each call is one [hideLoader "layerview-create"]
    followed by the removal of the registration; once the event has
    occurred the loader is hidden and the listener is registered no more. *)
Theorem first_layer_create_hides_once (w : World) :
  (_view w = None →
   MapService.hideLoaderOnFirstLayerCreate w
   = mkRun [svc_hideLoaderOnFirstLayerCreate] w (Normal tt))
  ∧ ∀ v, _view w = Some v →
    let h := Handle.mk v (Engine.fresh (listeners_of w v)) in
    let sub := MapService.hideLoaderOnFirstLayerCreate w in
    let first := Host.emitted v "layerview-create" in
    result sub = Normal tt
    ∧ trace sub = [svc_hideLoaderOnFirstLayerCreate; view_on v "layerview-create" h]
    ∧ registered h (world sub) = [first_layer_listener (Handle.registration h)]
    ∧ (∀ w', trace (Host.run_listener h (hide_and_unsubscribe "layerview-create") w')
             = [svc_hideLoader "layerview-create"; handle_remove h])
    ∧ ∀ os,
        let r := Host.run os (world sub) in
        result r = Normal tt
        ∧ invocations h (trace r) ≤ 1
        ∧ invocations h (trace r) = (if bool_decide (first ∈ os) then 1 else 0)
        ∧ (first ∈ os →
           registered h (world r) = [] ∧ loader_showing (world r) = false).
Proof.
  split.
  { destruct w as [sv s d c t]. cbn. by intros ->. }
  intros v Hv h sub first.
  destruct (subscribe_run w v Hv) as (Hres & Htr & _ & Hreg). fold h sub in Hres, Htr, Hreg.
  split; [done|]. split; [done|]. split; [done|]. split.
  { intros w'. by rewrite run_listener_run. }
  intros os r.
  destruct (run_bounded h os (world sub)) as (Hr & Hbound & _). fold r in Hr, Hbound.
  destruct (run_first h "layerview-create" os (world sub)) as [Hinv Hgone].
  { rewrite Hreg. by intros l ->%list_elem_of_singleton. }
  fold r in Hinv, Hgone. cbn [Handle.owner h] in Hinv, Hgone. fold first in Hinv, Hgone.
  rewrite Hreg in Hbound, Hinv, Hgone. cbn [length] in *.
  split; [done|]. split; [lia|]. split; [done|].
  intros Hin. destruct (Hgone Hin) as [? Hhid]. split; [done|]. by apply Hhid.
Qed.

Lemma first_layer_create_on_page :
  let w := with_view (Some 1) page in
  let os := [Host.emitted 1 "layerview-create"; Host.expired 0;
             Host.emitted 1 "layerview-create"] in
  _view w = Some 1
  ∧ invocations (Handle.mk 1 1)
      (trace (Host.run os (after MapService.hideLoaderOnFirstLayerCreate w))) = 1.
Proof.
  split; [reflexivity|].
  pose proof (proj2 (first_layer_create_hides_once (with_view (Some 1) page)) 1 eq_refl)
    as (_ & _ & _ & _ & Hos).
  exact (proj1 (proj2 (proj2 (Hos [Host.emitted 1 "layerview-create"; Host.expired 0;
                                   Host.emitted 1 "layerview-create"])))).
Defined.


(** ** Further properties of the service *)

(** *** Navigation and the graphics collection *)

Example goTo_default_zoom :
  MapView.requests (store (after (MapService.setView 1;;
                                  MapService.goTo (46.5%float, 24.5%float) None) page) 1)
  = [GoToTarget.mk (46.5%float, 24.5%float) 10%float].
Proof. reflexivity. Qed.



(** X2. With a handle [v] stored, [clearGraphics] makes one call,
    [v.graphics.removeAll()], after which [v]'s collection is empty.  It
    touches nothing else: [v]'s popup (an open popup stays open), listeners
    and map, every other view, and the rest of the world are as before. *)
Theorem clearGraphics_empties (w : World) (v : ref) :
  _view w = Some v →
  let r := MapService.clearGraphics w in
  result r = Normal tt
  ∧ trace r = [svc_clearGraphics; view_graphics_removeAll v]
  ∧ graphics_of (world r) v = []
  ∧ same_but_graphics (store w v) (store (world r) v)
  ∧ (∀ v', v' ≠ v → store (world r) v' = store w v')
  ∧ _view (world r) = Some v ∧ document (world r) = document w
  ∧ console (world r) = console w ∧ timers (world r) = timers w.
Proof.
  intros Hv. destruct w as [sv s d c t]. cbn in Hv. subst sv.
  unfold graphics_of, same_but_graphics. run_js. cbn.
  rewrite !fn_lookup_insert. cbn.
  repeat split; intros v' Hne; by rewrite fn_lookup_insert_ne.
Qed.

Lemma clearGraphics_on_page :
  let w := after (MapService.setView 1;;
                  MapService.dropMarker 1%float 2%float None) page in
  _view w = Some 1 ∧ graphics_of w 1 = [marker 1%float 2%float None]
  ∧ graphics_of (after MapService.clearGraphics w) 1 = [].
Proof.
  split; [reflexivity|]. split; [reflexivity|].
  exact (proj1 (proj2 (proj2 (clearGraphics_empties
    (after (MapService.setView 1;; MapService.dropMarker 1%float 2%float None) page)
    1 eq_refl)))).
Defined.


Lemma keeps_view_dropMarker (lon lat : number) (title : option string) :
  keeps_view (MapService.dropMarker lon lat title).
Proof.
  unfold MapService.dropMarker, Engine.graphics_add, Engine.popup_open.
  cbv zeta. frame.
Qed.

Lemma dropMarker_graphics (w : World) (v : ref) (lon lat : number)
    (title : option string) :
  _view w = Some v →
  graphics_of (after (MapService.dropMarker lon lat title) w) v
  = graphics_of w v ++ [marker lon lat title].
Proof.
  intros Hv. destruct w as [sv s d c t]. cbn in Hv. subst sv.
  unfold graphics_of, marker. run_js. cbn. rewrite !fn_lookup_insert. cbn.
  destruct (MapView.popup (s v)) as [[|shown]|]; cbn; rewrite ?fn_lookup_insert;
    by destruct title.
Qed.

Example same_marker_twice :
  let drop := after (MapService.dropMarker 1%float 2%float (Some "A")) in
  graphics_of (drop (drop (with_view (Some 1) page))) 1
  = [marker 1%float 2%float (Some "A"); marker 1%float 2%float (Some "A")].
Proof. reflexivity. Qed.

(** X3. [dropMarker] never replaces or merges: with a handle [v] stored, [k]
    calls with the same arguments leave [k] more graphics in [v]'s
    collection, all equal, after those that were there.  This holds whether
    or not the calls throw for want of a popup control. *)
Theorem dropMarker_accumulates (w : World) (v : ref) (lon lat : number)
    (title : option string) (k : nat) :
  _view w = Some v →
  let w' := Nat.iter k (after (MapService.dropMarker lon lat title)) w in
  _view w' = Some v
  ∧ graphics_of w' v = graphics_of w v ++ replicate k (marker lon lat title).
Proof.
  intros Hv. cbv zeta. induction k as [|k [IHv IHg]].
  - split; [done|]. cbn. by rewrite app_nil_r.
  - rewrite Nat.iter_succ. split.
    + etrans; [apply keeps_view_dropMarker|done].
    + rewrite (dropMarker_graphics _ v) by done.
      rewrite IHg, <- app_assoc. f_equal. symmetry. apply replicate_cons_app.
Qed.

Lemma dropMarker_thrice_without_popup :
  let w := with_view (Some 2) page in
  _view w = Some 2 ∧ popup_of w 2 = None
  ∧ length (graphics_of
      (Nat.iter 3 (after (MapService.dropMarker 1%float 2%float None)) w) 2) = 3.
Proof.
  split; [reflexivity|]. split; [reflexivity|].
  rewrite (proj2 (dropMarker_accumulates (with_view (Some 2) page) 2
                    1%float 2%float None 3 eq_refl)).
  reflexivity.
Defined.

(** *** Marker and popup together *)

(** X5. With a handle [v] stored whose popup widget is loaded, [dropMarker]
    followed by [clearGraphics] ends normally with [v]'s collection empty,
    while the popup still shows the removed marker: [clearGraphics] never
    closes the popup. *)
Theorem drop_then_clear_keeps_popup (w : World) (v : ref)
    (shown : option Popup.OpenOptions) (lon lat : number) (title : option string) :
  _view w = Some v → popup_of w v = Some (Popup.widget shown) →
  let g := marker lon lat title in
  let r := (MapService.dropMarker lon lat title;; MapService.clearGraphics) w in
  result r = Normal tt
  ∧ trace r = [svc_dropMarker lon lat (Attributes.title (Graphic.attributes g));
               view_graphics_add v g;
               view_popup_open v (Popup.mkOptions [g] (Graphic.geometry g));
               svc_clearGraphics;
               view_graphics_removeAll v]
  ∧ graphics_of (world r) v = []
  ∧ popup_of (world r) v
    = Some (Popup.widget (Some (Popup.mkOptions [g] (Graphic.geometry g)))).
Proof.
  intros Hv Hp. destruct w as [sv s d c t]. cbn in Hv. subst sv.
  unfold graphics_of, popup_of, marker in *. cbn in Hp. run_js. cbn.
  rewrite !fn_lookup_insert. cbn. rewrite Hp. cbn.
  rewrite !fn_lookup_insert. cbn. by destruct title.
Qed.

Lemma drop_then_clear_on_page :
  let w := with_view (Some 1) page in
  _view w = Some 1 ∧ popup_of w 1 = Some (Popup.widget None)
  ∧ graphics_of (after (MapService.dropMarker 1%float 2%float None;;
                        MapService.clearGraphics) w) 1 = [].
Proof.
  split; [reflexivity|]. split; [reflexivity|].
  exact (proj1 (proj2 (proj2 (drop_then_clear_keeps_popup (with_view (Some 1) page) 1
    None 1%float 2%float None eq_refl eq_refl)))).
Defined.

(** *** The header, again *)

Lemma updateHeader_run (w : World) :
  MapService.updateHeaderFromPortalItem w
  = mkRun [svc_updateHeaderFromPortalItem] (update_header w) (Normal tt).
Proof.
  destruct w as [v s [logo ld] c t].
  unfold update_header, stored_portalItem, navLogo, header_of. run_js. cbn.
  destruct v as [v|]; cbn; [|done].
  destruct (MapView.map (s v)) as [[item]|]; cbn; [|done].
  by destruct item as [item|], logo as [logo|].
Qed.

Lemma update_header_twice (w : World) :
  update_header (update_header w) = update_header w.
Proof.
  unfold update_header at 2 3.
  destruct (stored_portalItem w) as [item|] eqn:Hi; [|unfold update_header; by rewrite Hi].
  destruct (navLogo w) as [logo|] eqn:Hn.
  - destruct w as [v s [lg ld] c t]. unfold update_header, stored_portalItem, navLogo in *.
    cbn in *. by rewrite Hi.
  - unfold update_header. by rewrite Hi, Hn.
Qed.

(** X6. [updateHeaderFromPortalItem] is idempotent: the header is derived
    anew from the stored handle on every call, so a second call in a row
    leaves the world the first one made. *)
Theorem updateHeader_idempotent (w : World) :
  after (MapService.updateHeaderFromPortalItem;;
         MapService.updateHeaderFromPortalItem) w
  = after MapService.updateHeaderFromPortalItem w
  ∧ result ((MapService.updateHeaderFromPortalItem;;
             MapService.updateHeaderFromPortalItem) w) = Normal tt.
Proof.
  unfold after.
  rewrite (bind_run _ _ _ _ _ _ (updateHeader_run w)), !updateHeader_run.
  cbn [world result]. by rewrite update_header_twice.
Qed.


(** *** Relations every step of a program keeps *)

Section respects.
Context (R : World → World → Prop) `{!PreOrder R}.

Lemma respects_ret {A} (a : A) : respects R (ret a).
Proof. intros w. reflexivity. Qed.

Lemma respects_gets {A} (f : World → A) : respects R (gets f).
Proof. intros w. reflexivity. Qed.

Lemma respects_call (c : Call) : respects R (call c).
Proof. intros w. reflexivity. Qed.

Lemma respects_throw {A} (e : Exn) : respects R (@throw A e).
Proof. intros w. reflexivity. Qed.

Lemma respects_modify (f : World → World) :
  (∀ w, R w (f w)) → respects R (modify f).
Proof. intros H w. apply H. Qed.

Lemma respects_bind {A B} (m : M A) (f : A → M B) :
  respects R m → (∀ a, respects R (f a)) → respects R (m ≫= f).
Proof.
  intros Hm Hf w. specialize (Hm w). unfold mbind, M_bind.
  destruct (m w) as [t1 w1 [a|e]]; cbn in *; [|done].
  specialize (Hf a w1). destruct (f a w1) as [t2 w2 c2]; cbn in *.
  by etrans.
Qed.

End respects.

#[local] Instance hides_only_preorder : PreOrder hides_only.
Proof.
  split.
  - intros w. by left.
  - intros w w1 w2. unfold hides_only, loader_showing.
    intros [H1|[H1 H1']] [H2|[H2 H2']].
    + left. congruence.
    + right. rewrite <- H1. done.
    + right. split; [done|congruence].
    + rewrite H1' in H2. done.
Qed.

#[local] Instance quiet_preorder : PreOrder quiet.
Proof.
  split.
  - intros w _. done.
  - intros w w1 w2 H1 H2 Hw. destruct (H1 Hw) as [Hd Hc].
    destruct H2 as [Hd' Hc'].
    + unfold loader_showing, loader in *. by rewrite Hd.
    + split; congruence.
Qed.

(** Steps that write neither the document nor the console keep both
    relations. *)
Lemma same_page_hides_only (w w' : World) :
  document w' = document w → hides_only w w'.
Proof. intros H. left. unfold loader. by rewrite H. Qed.

Lemma same_page_quiet (w w' : World) :
  document w' = document w → console w' = console w → quiet w w'.
Proof. by intros ?? _. Qed.

Lemma hide_in_hides_only (reason : option string) (w : World) :
  hides_only w (hide_in reason w).
Proof.
  unfold hides_only, hide_in. destruct (loader_showing w) eqn:Hs; [|by left].
  right. split; [done|]. by destruct w as [v s [logo ld] c t].
Qed.

Lemma hide_in_quiet (reason : option string) (w : World) :
  quiet w (hide_in reason w).
Proof. intros Hs. unfold hide_in. by rewrite Hs. Qed.

Create HintDb respects.

(** Splits a program into its steps; a step that is a plain write is
    checked on the fields it writes. *)
Ltac respect_step :=
  lazymatch goal with
  | |- respects _ (_ ≫= _) => apply respects_bind; [apply _| |intros ?]
  | |- respects hides_only (modify _) =>
      apply respects_modify; intros []; left; reflexivity
  | |- respects quiet (modify _) =>
      apply respects_modify; intros []; by apply same_page_quiet
  | |- respects _ (match ?x with _ => _ end) => destruct x
  | |- respects _ ((match ?x with _ => _ end) _) => destruct x
  | |- respects _ (if ?x then _ else _) => destruct x
  | |- respects _ (ret _) => apply respects_ret; apply _
  | |- respects _ (gets _) => apply respects_gets; apply _
  | |- respects _ (call _) => apply respects_call; apply _
  | |- respects _ (throw _) => apply respects_throw; apply _
  | |- respects _ _ => first [assumption | solve [auto with respects] | progress cbv zeta]
  end.

Ltac respect := repeat respect_step.

Lemma hideLoader_hides_only (reason : option string) :
  respects hides_only (MapService.hideLoader reason).
Proof. intros w. rewrite hideLoader_run. apply hide_in_hides_only. Qed.

Lemma hideLoader_quiet (reason : option string) :
  respects quiet (MapService.hideLoader reason).
Proof. intros w. rewrite hideLoader_run. apply hide_in_quiet. Qed.

Lemma update_hides_only (v : ref) (f : MapView.t → MapView.t) :
  respects hides_only (Engine.update v f).
Proof. unfold Engine.update. respect. Qed.

Lemma update_quiet (v : ref) (f : MapView.t → MapView.t) :
  respects quiet (Engine.update v f).
Proof. unfold Engine.update. respect. Qed.

Lemma log_hides_only (e : ConsoleEntry) : respects hides_only (log e).
Proof. unfold log. respect. Qed.

#[local] Hint Resolve hideLoader_hides_only hideLoader_quiet update_hides_only
  update_quiet log_hides_only : respects.

Lemma deliver_hides_only (v : ref) (ls : list MapView.Listener) :
  respects hides_only (Host.deliver v ls).
Proof.
  induction ls as [|[i ty [reason]] ls IH]; cbn [Host.deliver]; [respect|].
  cbv zeta. unfold Host.run_listener, Engine.remove. cbn [MapView.callback].
  respect.
Qed.

Lemma deliver_quiet (v : ref) (ls : list MapView.Listener) :
  respects quiet (Host.deliver v ls).
Proof.
  induction ls as [|[i ty [reason]] ls IH]; cbn [Host.deliver]; [respect|].
  cbv zeta. unfold Host.run_listener, Engine.remove. cbn [MapView.callback].
  respect.
Qed.

Lemma host_hides_only (os : list Host.Occurrence) :
  respects hides_only (Host.run os).
Proof.
  induction os as [|[v ty|n] os IH]; cbn [Host.run Host.occur]; [respect|..].
  - unfold Host.emit. pose proof deliver_hides_only. respect.
  - unfold Host.expire, Host.run_timer. respect.
Qed.

Lemma host_quiet (os : list Host.Occurrence) : respects quiet (Host.run os).
Proof.
  induction os as [|[v ty|n] os IH]; cbn [Host.run Host.occur]; [respect|..].
  - unfold Host.emit. pose proof deliver_quiet. respect.
  - unfold Host.expire, Host.run_timer. respect.
Qed.

Example header_write_keeps_loader :
  loader (after (MapService.setView 1;; MapService.updateHeaderFromPortalItem) page)
  = loader page.
Proof. reflexivity. Qed.

(** X10. The loader element is only ever hidden.  Across any method of the
    service, the ready handler, and any stream of emissions and timer
    expiries, the element is either exactly as before, or it was showing and
    is now hidden: nothing creates it, removes it or shows it again. *)
Theorem loader_only_ever_hidden (w : World) :
  (∀ h, hides_only w (after (MapService.setView h) w))
  ∧ hides_only w (after MapService.updateHeaderFromPortalItem w)
  ∧ (∀ reason, hides_only w (after (MapService.hideLoader reason) w))
  ∧ hides_only w (after MapService.hideLoaderOnFirstLayerCreate w)
  ∧ (∀ center zoom, hides_only w (after (MapService.goTo center zoom) w))
  ∧ hides_only w (after MapService.clearGraphics w)
  ∧ (∀ lon lat title, hides_only w (after (MapService.dropMarker lon lat title) w))
  ∧ (∀ event, hides_only w (after (App.arcgisViewReadyChange event) w))
  ∧ (∀ os, hides_only w (after (Host.run os) w)).
Proof.
  repeat split; intros; revert w; unfold after;
    lazymatch goal with |- ∀ w, hides_only w (world (?m w)) =>
      change (respects hides_only m) end.
  - unfold MapService.setView. respect.
  - unfold MapService.updateHeaderFromPortalItem. respect.
  - apply hideLoader_hides_only.
  - unfold MapService.hideLoaderOnFirstLayerCreate, Engine.on. respect.
  - unfold MapService.goTo, Engine.goTo. respect.
  - unfold MapService.clearGraphics, Engine.graphics_removeAll. respect.
  - unfold MapService.dropMarker, Engine.graphics_add, Engine.popup_open. respect.
  - unfold App.arcgisViewReadyChange, MapService.setView,
      MapService.updateHeaderFromPortalItem,
      MapService.hideLoaderOnFirstLayerCreate, Engine.on, Engine.setTimeout.
    respect.
  - apply host_hides_only.
Qed.


(** ** Further properties of the ready handler *)

(** The world a notification with the handle [h] leaves, field by field. *)
Lemma ready_effect (event : CustomEvent.t) (w : World) (h : ref) :
  App.view_of event = Some h →
  let w' := after (App.arcgisViewReadyChange event) w in
  _view w' = Some h
  ∧ navLogo w' =
      match item_of w h, navLogo w with
      | Some item, Some _ => Some (header_of item)
      | _, _ => navLogo w
      end
  ∧ loader_showing w' = false
  ∧ console w' =
      console w ++ [fired event; ready_entry h]
        ++ (if loader_showing w then [hidden_message (Some "view ready")] else [])
  ∧ timers w' = timers w ++ [fallback_timer]
  ∧ (∀ v, listeners_of w' v =
       if decide (v = h)
       then listeners_of w v ++ [first_layer_listener (Engine.fresh (listeners_of w v))]
       else listeners_of w v)
  ∧ (∀ v, graphics_of w' v = graphics_of w v ∧ popup_of w' v = popup_of w v
          ∧ item_of w' v = item_of w v).
Proof.
  intros Hv. cbv zeta. unfold after. rewrite (ready_run _ _ _ Hv).
  destruct w as [sv s [logo ld] c t].
  unfold navLogo, item_of, loader_showing, loader, listeners_of, graphics_of,
    popup_of, header_of, fallback_timer, first_layer_listener, hidden_message,
    ready_entry.
  run_js. cbn. rewrite <- !app_assoc. cbn.
  assert (Hstore : ∀ v,
    MapView.listeners
      (<[h := MapView.with_listeners
          (MapView.listeners (s h) ++
             [MapView.mkListener (Engine.fresh (MapView.listeners (s h)))
                "layerview-create" (hide_and_unsubscribe "layerview-create")])
          (s h)]> s v)
    = (if decide (v = h)
       then MapView.listeners (s v) ++
              [MapView.mkListener (Engine.fresh (MapView.listeners (s v)))
                 "layerview-create" (hide_and_unsubscribe "layerview-create")]
       else MapView.listeners (s v))
    ∧ MapView.graphics (<[h := MapView.with_listeners
          (MapView.listeners (s h) ++
             [MapView.mkListener (Engine.fresh (MapView.listeners (s h)))
                "layerview-create" (hide_and_unsubscribe "layerview-create")])
          (s h)]> s v) = MapView.graphics (s v)
    ∧ MapView.popup (<[h := MapView.with_listeners
          (MapView.listeners (s h) ++
             [MapView.mkListener (Engine.fresh (MapView.listeners (s h)))
                "layerview-create" (hide_and_unsubscribe "layerview-create")])
          (s h)]> s v) = MapView.popup (s v)
    ∧ MapView.map (<[h := MapView.with_listeners
          (MapView.listeners (s h) ++
             [MapView.mkListener (Engine.fresh (MapView.listeners (s h)))
                "layerview-create" (hide_and_unsubscribe "layerview-create")])
          (s h)]> s v) = MapView.map (s v)).
  { intros v. destruct (decide (v = h)) as [->|Hne].
    - by rewrite fn_lookup_insert.
    - by rewrite fn_lookup_insert_ne. }
  destruct (MapView.map (s h)) as [[[item|]]|] eqn:Hmap, logo as [logo|],
    ld as [[[|]]|]; cbn;
    (repeat split; try done;
     first
       [ by rewrite <- app_assoc
       | by intros v'; apply Hstore
       | match goal with v : nat |- _ =>
           destruct (Hstore v) as (Hl & Hg & Hp & Hm); first [done | by rewrite Hm]
         end ]).
Qed.


Example header_kept_when_new_view_has_no_item :
  navLogo (after (App.arcgisViewReadyChange (ready 1);;
                  App.arcgisViewReadyChange (ready 2)) page)
  = Some (header_of parks).
Proof. reflexivity. Qed.

(** X7. After a notification with the handle [h], the header shows the
    portal item of [h]'s own map, whatever handle was stored before.  When
    [h]'s map is absent or has no portal item (or the page has no header
    element), the header is left as it was: a header written for an earlier
    view is never cleared. *)
Theorem ready_header_from_new_view (event : CustomEvent.t) (w : World) (h : ref) :
  App.view_of event = Some h →
  navLogo (after (App.arcgisViewReadyChange event) w) =
    match item_of w h, navLogo w with
    | Some item, Some _ => Some (header_of item)
    | _, _ => navLogo w
    end
  ∧ ∀ previous,
      navLogo (after (App.arcgisViewReadyChange event) (with_view previous w))
      = navLogo (after (App.arcgisViewReadyChange event) w).
Proof.
  intros Hv. destruct (ready_effect event w h Hv) as (_ & Hlogo & _).
  split; [exact Hlogo|]. intros previous.
  destruct (ready_effect event (with_view previous w) h Hv) as (_ & Hlogo' & _).
  cbv zeta in *. rewrite Hlogo, Hlogo'. by destruct w.
Qed.

Lemma ready_header_stale_on_page :
  let w := after (App.arcgisViewReadyChange (ready 1)) page in
  App.view_of (ready 2) = Some 2 ∧ item_of w 2 = None
  ∧ navLogo (after (App.arcgisViewReadyChange (ready 2)) w) = Some (header_of parks).
Proof.
  split; [reflexivity|]. split; [reflexivity|].
  rewrite (proj1 (ready_header_from_new_view (ready 2)
                    (after (App.arcgisViewReadyChange (ready 1)) page) 2 eq_refl)).
  reflexivity.
Defined.

Lemma registered_fresh (ls : list MapView.Listener) (l : MapView.Listener) :
  MapView.id l = Engine.fresh ls →
  filter (λ l', MapView.id l' = Engine.fresh ls) (ls ++ [l]) = [l].
Proof.
  intros Hl. rewrite list.filter_app, filter_cons_True by done.
  rewrite filter_none; [done|]. intros l' Hl' Hid.
  apply fresh_above in Hl'. lia.
Qed.

(** X8. Nothing is torn down when a second view becomes ready.  After a
    notification with [h1] and then one with a different handle [h2], [h2]
    is stored, each view carries the listener registered for it, and two
    timers are pending.  The listener on the earlier view is still live: a
    "layerview-create" emitted by [h1] calls it. *)
Theorem two_ready_no_teardown (e1 e2 : CustomEvent.t) (w : World) (h1 h2 : ref) :
  App.view_of e1 = Some h1 → App.view_of e2 = Some h2 → h1 ≠ h2 →
  let w2 := after (App.arcgisViewReadyChange e2)
              (after (App.arcgisViewReadyChange e1) w) in
  let n1 := Engine.fresh (listeners_of w h1) in
  let n2 := Engine.fresh (listeners_of w h2) in
  _view w2 = Some h2
  ∧ listeners_of w2 h1 = listeners_of w h1 ++ [first_layer_listener n1]
  ∧ listeners_of w2 h2 = listeners_of w h2 ++ [first_layer_listener n2]
  ∧ timers w2 = timers w ++ [fallback_timer; fallback_timer]
  ∧ invocations (Handle.mk h1 n1) (trace (Host.emit h1 "layerview-create" w2)) = 1.
Proof.
  intros Hv1 Hv2 Hne. cbv zeta.
  destruct (ready_effect e1 w h1 Hv1) as (_ & _ & _ & _ & Ht1 & Hl1 & _).
  destruct (ready_effect e2 (after (App.arcgisViewReadyChange e1) w) h2 Hv2)
    as (Hview & _ & _ & _ & Ht2 & Hl2 & _).
  cbv zeta in *.
  assert (H1 : listeners_of (after (App.arcgisViewReadyChange e2)
                  (after (App.arcgisViewReadyChange e1) w)) h1
               = listeners_of w h1 ++ [first_layer_listener (Engine.fresh (listeners_of w h1))]).
  { rewrite Hl2, decide_False by done. by rewrite Hl1, decide_True. }
  split; [done|]. split; [done|]. split; [|split].
  - rewrite Hl2, decide_True by done. rewrite Hl1, decide_False by done. done.
  - rewrite Ht2, Ht1. by rewrite <- app_assoc.
  - destruct (emit_run (Handle.mk h1 (Engine.fresh (listeners_of w h1))) h1
                "layerview-create"
                (after (App.arcgisViewReadyChange e2)
                   (after (App.arcgisViewReadyChange e1) w)))
      as (_ & Hinv & _).
    cbv zeta in Hinv. rewrite Hinv. unfold registered.
    cbn [Handle.owner Handle.registration]. rewrite decide_True by done.
    rewrite H1, registered_fresh by done. done.
Qed.

Lemma two_ready_on_page :
  let w2 := after (App.arcgisViewReadyChange (ready 2))
              (after (App.arcgisViewReadyChange (ready 1)) page) in
  App.view_of (ready 1) = Some 1 ∧ App.view_of (ready 2) = Some 2 ∧ 1 ≠ 2
  ∧ _view w2 = Some 2
  ∧ listeners_of w2 1 = [first_layer_listener 1].
Proof.
  split; [reflexivity|]. split; [reflexivity|]. split; [lia|].
  pose proof (two_ready_no_teardown (ready 1) (ready 2) page 1 2 eq_refl eq_refl
                ltac:(lia)) as (Hv & Hl & _).
  split; [exact Hv|exact Hl].
Defined.

(** X11. After a notification with a handle, the fallbacks never show: for
    any stream of emissions and timer expiries that follows, the document
    stays as the handler left it and the console holds what the handler
    logged and no more.  "Loader hidden (view ready)" is logged exactly when
    the loader was showing; the reasons "layerview-create" and "timeout
    fallback" are never logged. *)
Theorem ready_then_quiet (event : CustomEvent.t) (w : World) (h : ref)
    (os : list Host.Occurrence) :
  App.view_of event = Some h →
  let w1 := after (App.arcgisViewReadyChange event) w in
  let w2 := after (Host.run os) w1 in
  document w2 = document w1
  ∧ console w2 =
      console w ++ [fired event; ready_entry h]
        ++ (if loader_showing w then [hidden_message (Some "view ready")] else []).
Proof.
  intros Hv. cbv zeta.
  destruct (ready_effect event w h Hv) as (_ & _ & Hs & Hc & _). cbv zeta in *.
  destruct (host_quiet os (after (App.arcgisViewReadyChange event) w) Hs) as [Hd Hc'].
  split; [exact Hd|]. etrans; [exact Hc'|exact Hc].
Qed.

Lemma ready_then_quiet_on_page :
  let os := [Host.emitted 1 "layerview-create"; Host.expired 0] in
  App.view_of (ready 1) = Some 1
  ∧ console (after (Host.run os) (after (App.arcgisViewReadyChange (ready 1)) page))
    = [fired (ready 1); ready_entry 1; hidden_message (Some "view ready")].
Proof.
  split; [reflexivity|].
  exact (proj2 (ready_then_quiet (ready 1) page 1
                  [Host.emitted 1 "layerview-create"; Host.expired 0] eq_refl)).
Defined.


(** ** Further properties of the subscription *)

Lemma keeps_view_subscribe : keeps_view MapService.hideLoaderOnFirstLayerCreate.
Proof. unfold MapService.hideLoaderOnFirstLayerCreate, Engine.on. frame. Qed.

(** An occurrence other than the awaited emission calls no listener
    registered under [h] and leaves the registration as it is. *)
Lemma occur_other (h : Handle.t) (type : string) (o : Host.Occurrence) (w : World) :
  (∀ l, l ∈ registered h w → MapView.type l = type) →
  o ≠ Host.emitted (Handle.owner h) type →
  invocations h (trace (Host.occur o w)) = 0
  ∧ registered h (world (Host.occur o w)) = registered h w.
Proof.
  intros J Ho. destruct o as [v ty|n]; cbn [Host.occur].
  - destruct (emit_run h v ty w) as (_ & Hinv & Hreg & _). cbv zeta in *.
    rewrite Hinv, Hreg. case_decide as Hv; [|done]. subst v.
    rewrite filter_none; [done|]. intros l Hl Hty.
    apply Ho. f_equal. rewrite <- Hty. by apply J.
  - destruct (expire_run h n w) as (_ & Hinv & Hst & _). cbv zeta in *.
    split; [done|]. unfold registered, listeners_of. by rewrite Hst.
Qed.

Lemma run_idle (h : Handle.t) (type : string) (os : list Host.Occurrence) (w : World) :
  (∀ l, l ∈ registered h w → MapView.type l = type) →
  Host.emitted (Handle.owner h) type ∉ os →
  invocations h (trace (Host.run os w)) = 0
  ∧ registered h (world (Host.run os w)) = registered h w.
Proof.
  revert w. induction os as [|o os IH]; intros w J Hos; [done|].
  apply not_elem_of_cons in Hos as [Ho Hos].
  destruct (occur_run h o w) as (Hres & _ & _). cbv zeta in Hres.
  rewrite (run_cons o os w Hres). cbn [trace world result].
  destruct (occur_other h type o w J) as [Hinv Hreg]; [done|].
  destruct (IH (world (Host.occur o w))) as [IHinv IHreg]; [by rewrite Hreg|done|].
  rewrite invocations_app, Hinv, IHinv, IHreg, Hreg. done.
Qed.

Example fallback_leaves_listener :
  listeners_of
    (after (App.arcgisViewReadyChange (ready 1);; Host.run [Host.expired 0]) page) 1
  = [first_layer_listener 1].
Proof. reflexivity. Qed.

(** X13. The subscription is ended by the event only.  With a handle [v]
    stored, over any stream in which [v] does not emit "layerview-create"
    (timer expiries, the timeout fallback among them, other events, other
    views), the listener [hideLoaderOnFirstLayerCreate] registered is never
    called and stays registered. *)
Theorem subscription_outlives_fallback (w : World) (v : ref)
    (os : list Host.Occurrence) :
  _view w = Some v →
  Host.emitted v "layerview-create" ∉ os →
  let h := Handle.mk v (Engine.fresh (listeners_of w v)) in
  let r := Host.run os (after MapService.hideLoaderOnFirstLayerCreate w) in
  invocations h (trace r) = 0
  ∧ registered h (world r) = [first_layer_listener (Handle.registration h)].
Proof.
  intros Hv Hos h r.
  destruct (subscribe_run w v Hv) as (_ & _ & _ & Hreg). cbv zeta in Hreg. fold h in Hreg.
  destruct (run_idle h "layerview-create" os
              (after MapService.hideLoaderOnFirstLayerCreate w)) as [Hinv Hsame].
  - unfold after. rewrite Hreg. by intros l ->%list_elem_of_singleton.
  - done.
  - split; [exact Hinv|]. unfold r. rewrite Hsame. exact Hreg.
Qed.

Lemma subscription_outlives_fallback_on_page :
  let w := with_view (Some 1) page in
  let os := [Host.expired 0; Host.emitted 1 "click"; Host.emitted 2 "layerview-create"] in
  _view w = Some 1
  ∧ (Host.emitted 1 "layerview-create" ∉ os)
  ∧ registered (Handle.mk 1 1)
      (after (Host.run os) (after MapService.hideLoaderOnFirstLayerCreate w))
    = [first_layer_listener 1].
Proof.
  assert (Hos : Host.emitted 1 "layerview-create"
                ∉ [Host.expired 0; Host.emitted 1 "click";
                   Host.emitted 2 "layerview-create"]).
  { apply (bool_decide_unpack _). vm_compute. exact I. }
  split; [reflexivity|]. split; [exact Hos|].
  exact (proj2 (subscription_outlives_fallback (with_view (Some 1) page) 1
                  [Host.expired 0; Host.emitted 1 "click";
                   Host.emitted 2 "layerview-create"] eq_refl Hos)).
Defined.

(** X9. Each call subscribes anew.  With a handle [v] stored, two calls of
    [hideLoaderOnFirstLayerCreate] register two listeners under different
    handles.  Over any stream that follows, each is called exactly once if
    [v] emits "layerview-create" and never otherwise, and after that
    emission neither is registered. *)
Theorem two_subscriptions_independent (w : World) (v : ref)
    (os : list Host.Occurrence) :
  _view w = Some v →
  let w1 := after MapService.hideLoaderOnFirstLayerCreate w in
  let w2 := after MapService.hideLoaderOnFirstLayerCreate w1 in
  let h1 := Handle.mk v (Engine.fresh (listeners_of w v)) in
  let h2 := Handle.mk v (Engine.fresh (listeners_of w1 v)) in
  let first := Host.emitted v "layerview-create" in
  let r := Host.run os w2 in
  Handle.registration h1 < Handle.registration h2
  ∧ listeners_of w2 v
    = listeners_of w v ++ [first_layer_listener (Handle.registration h1);
                           first_layer_listener (Handle.registration h2)]
  ∧ invocations h1 (trace r) = (if bool_decide (first ∈ os) then 1 else 0)
  ∧ invocations h2 (trace r) = (if bool_decide (first ∈ os) then 1 else 0)
  ∧ (first ∈ os → registered h1 (world r) = [] ∧ registered h2 (world r) = []).
Proof.
  intros Hv. cbv zeta. unfold after.
  destruct (subscribe_run w v Hv) as (_ & _ & Hl1 & Hr1). cbv zeta in Hl1, Hr1.
  set (w1 := world (MapService.hideLoaderOnFirstLayerCreate w)) in *.
  assert (Hv1 : _view w1 = Some v) by (etrans; [apply keeps_view_subscribe|done]).
  destruct (subscribe_run w1 v Hv1) as (_ & _ & Hl2 & Hr2). cbv zeta in Hl2, Hr2.
  set (w2 := world (MapService.hideLoaderOnFirstLayerCreate w1)) in *.
  set (n1 := Engine.fresh (listeners_of w v)) in *.
  set (n2 := Engine.fresh (listeners_of w1 v)) in *.
  cbn [Handle.registration] in *.
  assert (Hlt : n1 < n2).
  { apply (fresh_above (listeners_of w1 v) (first_layer_listener n1)).
    rewrite Hl1. apply elem_of_app. right. left. }
  assert (Hr1' : registered (Handle.mk v n1) w2 = [first_layer_listener n1]).
  { unfold registered in *. cbn [Handle.owner Handle.registration] in *.
    rewrite Hl2, list.filter_app, Hr1.
    rewrite filter_cons_False by (cbn; lia). done. }
  destruct (run_first (Handle.mk v n1) "layerview-create" os w2) as [Hi1 Hg1].
  { rewrite Hr1'. by intros l ->%list_elem_of_singleton. }
  destruct (run_first (Handle.mk v n2) "layerview-create" os w2) as [Hi2 Hg2].
  { rewrite Hr2. by intros l ->%list_elem_of_singleton. }
  cbv zeta in *. cbn [Handle.owner] in *.
  rewrite Hr1' in Hi1. rewrite Hr2 in Hi2. cbn [length] in *.
  split; [exact Hlt|]. split; [by rewrite Hl2, Hl1, <- app_assoc|].
  split; [exact Hi1|]. split; [exact Hi2|].
  intros Hin. split; [by apply Hg1|by apply Hg2].
Qed.

Lemma two_subscriptions_on_page :
  let w := with_view (Some 1) page in
  let w2 := after (MapService.hideLoaderOnFirstLayerCreate;;
                   MapService.hideLoaderOnFirstLayerCreate) w in
  _view w = Some 1
  ∧ listeners_of w2 1 = [first_layer_listener 1; first_layer_listener 2]
  ∧ invocations (Handle.mk 1 2)
      (trace (Host.run [Host.emitted 1 "layerview-create";
                        Host.emitted 1 "layerview-create"] w2)) = 1.
Proof.
  split; [reflexivity|].
  pose proof (two_subscriptions_independent (with_view (Some 1) page) 1
                [Host.emitted 1 "layerview-create"; Host.emitted 1 "layerview-create"]
                eq_refl) as (_ & Hl & _ & Hi & _).
  split; [exact Hl|exact Hi].
Defined.


(** ** Footprints *)

#[local] Instance callbacks_frame_preorder : PreOrder callbacks_frame.
Proof.
  split.
  - intros w. by repeat split.
  - intros w w1 w2 (Hv1 & Hn1 & Hs1) (Hv2 & Hn2 & Hs2).
    split; [congruence|]. split; [congruence|]. intros v.
    destruct (Hs1 v) as (? & ? & ? & ?), (Hs2 v) as (? & ? & ? & ?).
    repeat split; congruence.
Qed.

Lemma hideLoader_callbacks_frame (reason : option string) :
  respects callbacks_frame (MapService.hideLoader reason).
Proof.
  intros w. rewrite hideLoader_run. unfold hide_in. cbn [world].
  destruct (loader_showing w); destruct w; by repeat split.
Qed.

Lemma remove_callbacks_frame (h : Handle.t) :
  respects callbacks_frame (Engine.remove h).
Proof.
  intros w. rewrite remove_run. cbn [world]. destruct w as [sv s d c t].
  unfold unsubscribe, callbacks_frame, listeners_of. cbn.
  split; [done|]. split; [done|]. intros v.
  destruct (decide (v = Handle.owner h)) as [->|Hne].
  - rewrite fn_lookup_insert. by repeat split.
  - rewrite fn_lookup_insert_ne by done. by repeat split.
Qed.

#[local] Hint Resolve hideLoader_callbacks_frame remove_callbacks_frame : respects.

Ltac respect_frame_step :=
  lazymatch goal with
  | |- respects callbacks_frame (modify _) =>
      apply respects_modify; intros []; by repeat split
  | |- _ => respect_step
  end.

Lemma deliver_callbacks_frame (v : ref) (ls : list MapView.Listener) :
  respects callbacks_frame (Host.deliver v ls).
Proof.
  induction ls as [|[i ty [reason]] ls IH]; cbn [Host.deliver]; [respect|].
  cbv zeta. unfold Host.run_listener. cbn [MapView.callback].
  repeat respect_frame_step.
Qed.

Example stream_leaves_marker :
  graphics_of
    (after (App.arcgisViewReadyChange (ready 1);;
            MapService.dropMarker 1%float 2%float None;;
            Host.run [Host.emitted 1 "layerview-create"; Host.expired 0]) page) 1
  = [marker 1%float 2%float None].
Proof. reflexivity. Qed.

(** X12. The callbacks write little.  Over any stream of emissions and
    timer expiries, the stored handle, the header element, and the map,
    graphics, popup and navigation requests of every view are as before:
    the two closures only hide the loader and remove their own listener. *)
Theorem host_footprint (os : list Host.Occurrence) (w : World) :
  callbacks_frame w (after (Host.run os) w).
Proof.
  revert w. unfold after.
  change (respects callbacks_frame (Host.run os)).
  induction os as [|[v ty|n] os IH]; cbn [Host.run Host.occur]; [respect|..].
  - unfold Host.emit. pose proof deliver_callbacks_frame. repeat respect_frame_step.
  - unfold Host.expire, Host.run_timer. repeat respect_frame_step.
Qed.

(** X14. What the methods write.  [hideLoaderOnFirstLayerCreate], [goTo],
    [clearGraphics] and [dropMarker] write the stored view and nothing
    else: timers, console, document and every other view are as before
    (for [dropMarker] also when it throws).  [setView] and
    [updateHeaderFromPortalItem] write no view, timer or console entry, and
    [hideLoader] no view or timer. *)
Theorem service_footprint (w : World) :
  stored_view_only w (after MapService.hideLoaderOnFirstLayerCreate w)
  ∧ (∀ center zoom, stored_view_only w (after (MapService.goTo center zoom) w))
  ∧ stored_view_only w (after MapService.clearGraphics w)
  ∧ (∀ lon lat title, stored_view_only w (after (MapService.dropMarker lon lat title) w))
  ∧ (∀ h, after (MapService.setView h) w = with_view (Some h) w)
  ∧ (store (after MapService.updateHeaderFromPortalItem w) = store w
     ∧ timers (after MapService.updateHeaderFromPortalItem w) = timers w
     ∧ console (after MapService.updateHeaderFromPortalItem w) = console w)
  ∧ (∀ reason,
       store (after (MapService.hideLoader reason) w) = store w
       ∧ timers (after (MapService.hideLoader reason) w) = timers w
       ∧ navLogo (after (MapService.hideLoader reason) w) = navLogo w).
Proof.
  split; [|split; [|split; [|split; [|split; [|split]]]]]; intros.
  - destruct w as [[v|] s d c t]; unfold stored_view_only; run_js; cbn;
      repeat split; intros v' Hne; try done.
    rewrite fn_lookup_insert_ne; [done|congruence].
  - destruct w as [[v|] s d c t]; unfold stored_view_only; run_js; cbn;
      repeat split; intros v' Hne; try done.
    rewrite fn_lookup_insert_ne; [done|congruence].
  - destruct w as [[v|] s d c t]; unfold stored_view_only; run_js; cbn;
      repeat split; intros v' Hne; try done.
    rewrite fn_lookup_insert_ne; [done|congruence].
  - destruct w as [[v|] s d c t]; unfold stored_view_only; run_js; cbn;
      [|by repeat split].
    rewrite fn_lookup_insert. cbn.
    destruct (MapView.popup (s v)) as [[|shown]|]; cbn; repeat split; intros v' Hne;
      rewrite !fn_lookup_insert_ne; done || congruence.
  - by destruct w.
  - unfold after. rewrite updateHeader_run. cbn [world]. unfold update_header.
    destruct (stored_portalItem w), (navLogo w); by destruct w.
  - unfold after. rewrite hideLoader_run. cbn [world]. unfold hide_in.
    destruct (loader_showing w); by destruct w.
Qed.
